(** * sfdc-graphql-endpoint: the schema builder and the entity normalizer

    A shallow embedding of [src/node-app/src/schema-builder.ts] (the class
    [SchemaBuilder]) and of the entity module that follows it in the same
    source file ([createField], [createChildRelationShip], [createEntity]).

    JavaScript values are modelled as the code uses them:
    - a call that can throw returns a [Completion];
    - [undefined] is [None] (or a constructor of its own where a property can
      hold more than a string);
    - a [Map] and a plain object used as a dictionary are association lists
      in the order of their keys, where writing an existing key replaces
      its value in place; an assignment [o[key] = value] to a plain object
      is [Object_set], which follows JavaScript for the key [__proto__]
      (the prototype is set, no key is added) and for array-index keys
      (they come first, in numeric order); for [Object.fromEntries] the
      place of array-index keys is not modelled, and no statement about its
      result depends on the order of the keys;
    - the [fields] thunk of a [GraphQLObjectType] is kept as the data its
      closure captures and is run by [forceFields] against the builder state
      of the moment it is called. *)

From Stdlib Require Import Ascii String List Bool Arith NArith Lia.
Import ListNotations.
Open Scope string_scope.
Open Scope list_scope.

(** ** Completions: normal return or a thrown exception *)

Inductive Completion (A : Type) : Type :=
| Normal (a : A)
| Throw (message : string).
Arguments Normal {A} a.
Arguments Throw {A} message.

Definition bind {A B : Type} (c : Completion A) (k : A -> Completion B) : Completion B :=
  match c with
  | Normal a => k a
  | Throw m => Throw m
  end.

Notation "x <- c ;; k" := (bind c (fun x => k))
  (at level 61, c at next level, right associativity).

(** [array.map(f)] when [f] may throw: the first exception aborts the walk. *)
Fixpoint mapM {A B : Type} (f : A -> Completion B) (l : list A) : Completion (list B) :=
  match l with
  | [] => Normal []
  | a :: l' => b <- f a ;; bs <- mapM f l' ;; Normal (b :: bs)
  end.

(** ** Insertion-ordered dictionaries ([Map], object literals) *)

Definition Dict (V : Type) : Type := list (string * V).

Fixpoint Map_get {V : Type} (m : Dict V) (key : string) : option V :=
  match m with
  | [] => None
  | (k, v) :: m' => if String.eqb k key then Some v else Map_get m' key
  end.

Fixpoint Map_set {V : Type} (m : Dict V) (key : string) (value : V) : Dict V :=
  match m with
  | [] => [(key, value)]
  | (k, v) :: m' =>
      if String.eqb k key then (key, value) :: m' else (k, v) :: Map_set m' key value
  end.

(** [new Map(entries)] and [Object.fromEntries(entries)]: the entries are
    written one after the other. *)
Definition Map_new {V : Type} (entries : list (string * V)) : Dict V :=
  fold_left (fun m entry => Map_set m (fst entry) (snd entry)) entries [].

Definition Map_values {V : Type} (m : Dict V) : list V := map snd m.

Definition Object_fromEntries {V : Type} (entries : list (string * V)) : Dict V :=
  Map_new entries.

(** Array-index keys: the canonical decimal form of an integer from 0 to
    2^32 - 2. An object lists them before its other keys, in numeric
    order. *)
Definition digitValue (c : ascii) : option N :=
  let n := N_of_ascii c in
  if (N.leb 48 n && N.leb n 57)%bool then Some (n - 48)%N else None.

Fixpoint parseDigits (s : string) (acc : N) : option N :=
  match s with
  | EmptyString => Some acc
  | String c rest =>
      match digitValue c with
      | Some d => parseDigits rest (10 * acc + d)%N
      | None => None
      end
  end.

Definition arrayIndex (key : string) : option N :=
  match key with
  | EmptyString => None
  | String c rest =>
      if (Ascii.eqb c "0" && negb (String.eqb rest ""))%bool then None
      else match parseDigits key 0%N with
           | Some n => if N.leb n 4294967294 then Some n else None
           | None => None
           end
  end.

(** A new array-index key takes its place among the array-index keys. *)
Fixpoint insertIndex {V : Type} (o : Dict V) (index : N) (key : string) (value : V)
  : Dict V :=
  match o with
  | [] => [(key, value)]
  | (k, v) :: o' =>
      match arrayIndex k with
      | Some i =>
          if N.ltb index i then (key, value) :: o
          else (k, v) :: insertIndex o' index key value
      | None => (key, value) :: o
      end
  end.

(** [o[key] = value] on an object made by [{}], whose prototype chain ends
    in [Object.prototype]: the key [__proto__] is the accessor of
    [Object.prototype], so the assignment sets the prototype of [o] (the
    values here are objects) and adds no own key; any other key is written
    as an own property, an existing one in place, a new array index among
    the array indices, and any other new key at the end. *)
Definition Object_set {V : Type} (o : Dict V) (key : string) (value : V) : Dict V :=
  if String.eqb key "__proto__" then o
  else
    match arrayIndex key with
    | Some index =>
        if existsb (String.eqb key) (map fst o)
        then Map_set o key value
        else insertIndex o index key value
    | None => Map_set o key value
    end.

(** ** The entity model (interfaces [Entity], [Field], ...) *)

Module FieldConfig.
Record t : Type := mk {
  nillable : bool;
  createable : bool;
  updateable : bool;
  filterable : bool;
  groupable : bool;
  sortable : bool;
  aggregatable : bool
}.
End FieldConfig.

Module EntityConfig.
Record t : Type := mk {
  createable : bool;
  updateable : bool;
  deletable : bool;
  queryable : bool
}.
End EntityConfig.

(** [const enum FieldType]: the members and their string values. *)
Inductive FieldType : Type :=
| STRING | BOOLEAN | INT | FLOAT | DATE | DATETIME | BASE64 | ID | CURRENCY
| TEXTAREA | PERCENT | PHONE | URL | EMAIL | ANY_TYPE | ADDRESS | LOCATION
| PICKLIST | MULTI_PICKLIST | COMBOBOX | REFERENCE | POLYMORPHIC_REFERENCE.

Definition FieldType_value (k : FieldType) : string :=
  match k with
  | STRING => "String"
  | BOOLEAN => "Boolean"
  | INT => "Int"
  | FLOAT => "Float"
  | DATE => "Date"
  | DATETIME => "DateTime"
  | BASE64 => "Base64"
  | ID => "Id"
  | CURRENCY => "Currency"
  | TEXTAREA => "TextArea"
  | PERCENT => "Percent"
  | PHONE => "Phone"
  | URL => "URL"
  | EMAIL => "Email"
  | ANY_TYPE => " AnyType"
  | ADDRESS => "Address"
  | LOCATION => "Location"
  | PICKLIST => "Picklist"
  | MULTI_PICKLIST => "MultiPicklist"
  | COMBOBOX => "ComboBox"
  | REFERENCE => "Reference"
  | POLYMORPHIC_REFERENCE => "PolymorphicReference"
  end.

(** What the [type] property of a field object can hold at run time: a
    string, [undefined], or a property inherited from [Object.prototype]
    (the result of indexing an object literal with a name such as
    [constructor]). *)
Inductive TypeValue : Type :=
| TagUndefined
| TagString (s : string)
| TagInherited (property : string).

Module Field.
(** One record for the three variants of [Field], as the objects are at run
    time: a property a variant does not have reads as [undefined] ([None]).
    [referenceTo] is the property [SchemaBuilder.#buildField] reads. *)
Record t : Type := mk {
  type : TypeValue;
  sfdcName : option string;
  gqlName : string;
  config : FieldConfig.t;
  sfdcRelationshipName : option string;
  sfdcReferencedEntityName : option string;
  sfdcReferencedEntitiesNames : option (list string);
  referenceTo : option (list string)
}.
End Field.

Module ChildRelationship.
Record t : Type := mk {
  sfdcName : string;
  gqlName : string;
  entity : string
}.
End ChildRelationship.

Module Entity.
Record t : Type := mk {
  sfdcName : string;
  gqlName : string;
  config : EntityConfig.t;
  fields : list Field.t;
  childRelationships : list ChildRelationship.t
}.
End Entity.

(** Modelled from the spec: the class [Graph] of [./graph] is not part of the
    sources. The builder uses its property [entities] (a sequence of
    entities) and its method [entityBySfdcName], which returns the entity of
    the graph with the given source name, or [undefined] when there is
    none. *)
Module Graph.
Record t : Type := mk {
  entities : list Entity.t
}.

Definition entityBySfdcName (g : t) (sfdcName : string) : option Entity.t :=
  find (fun entity => String.eqb (Entity.sfdcName entity) sfdcName) (entities g).
End Graph.

(** ** GraphQL types (the part of graphql-js the builder uses) *)

(** The closure given as [fields] to [new GraphQLObjectType]: the entity it
    captures, or the root query's closure, which captures the builder only. *)
Inductive FieldsThunk : Type :=
| EntityFields (entity : Entity.t)
| QueryFields.

Module GraphQLObjectType.
Record t : Type := mk {
  name : string;
  fields : FieldsThunk
}.
End GraphQLObjectType.

Inductive GraphQLType : Type :=
| GraphQLID
| GraphQLString
| GraphQLBoolean
| GraphQLInt
| GraphQLFloat
| GraphQLScalarType (name : string)
| ObjectType (o : GraphQLObjectType.t)
| GraphQLList (ofType : GraphQLType)
| GraphQLNonNull (ofType : GraphQLType).

Definition isNonNullType (t : GraphQLType) : bool :=
  match t with
  | GraphQLNonNull _ => true
  | _ => false
  end.

(** [new GraphQLList(ofType)]: graphql-js asserts that [ofType] is a type. *)
Definition new_GraphQLList (ofType : option GraphQLType) : Completion GraphQLType :=
  match ofType with
  | Some t => Normal (GraphQLList t)
  | None => Throw "Expected undefined to be a GraphQL type."
  end.

(** [new GraphQLNonNull(ofType)]: graphql-js asserts that [ofType] is a
    nullable type. *)
Definition new_GraphQLNonNull (ofType : option GraphQLType) : Completion GraphQLType :=
  match ofType with
  | Some t =>
      if isNonNullType t
      then Throw "Expected a GraphQL nullable type."
      else Normal (GraphQLNonNull t)
  | None => Throw "Expected undefined to be a GraphQL nullable type."
  end.

(** [GraphQLFieldConfig]: [type] may be [undefined] (the builder's local
    variable [type] starts unassigned); [args] is [None] when the object
    literal has no [args] property. *)
Module GraphQLFieldConfig.
Record t : Type := mk {
  type : option GraphQLType;
  args : option (Dict GraphQLType)
}.
End GraphQLFieldConfig.

(** ** schema-builder.ts *)

Definition BUILTIN_SCALAR_TYPES : Dict GraphQLType :=
  [ ("id", GraphQLID);
    ("string", GraphQLString);
    ("boolean", GraphQLBoolean);
    ("int", GraphQLInt);
    ("double", GraphQLFloat);
    ("date", GraphQLScalarType "Date");
    ("datetime", GraphQLScalarType "DateTime");
    ("base64", GraphQLScalarType "Base64");
    ("currency", GraphQLScalarType "Currency");
    ("textarea", GraphQLScalarType "TextArea");
    ("percent", GraphQLScalarType "Percent");
    ("phone", GraphQLScalarType "Phone");
    ("url", GraphQLScalarType "URL");
    ("email", GraphQLScalarType "Email");
    ("combobox", GraphQLScalarType "Combobox");
    ("anyType", GraphQLScalarType "AnyType");
    ("picklist", GraphQLString);
    ("multipicklist", GraphQLList GraphQLString) ].

Module SchemaBuilder.
Record t : Type := mk {
  graph : Graph.t;
  graphQLTypes : Dict GraphQLObjectType.t;
  graphQLScalars : Dict GraphQLType
}.

(** [new SchemaBuilder(graph)]: both maps start empty. *)
Definition new (graph : Graph.t) : t := mk graph [] [].
End SchemaBuilder.

(** The labels of the first group of [case]s in [#buildField]. *)
Definition scalarCases : list string :=
  [ "id"; "string"; "boolean"; "int"; "double"; "date"; "datetime"; "base64";
    "currency"; "textarea"; "percent"; "phone"; "url"; "email"; "combobox";
    "anyType"; "picklist"; "multipicklist" ].

Definition isScalarCase (tag : string) : bool :=
  existsb (String.eqb tag) scalarCases.

(** The [switch (field.type)] of [#buildField] (lines 125-159): the value of
    the local variable [type] after it, [None] when no [case] assigned it.
    [switch] compares with [===], so only a string can match a label. *)
Definition resolveFieldType (this : SchemaBuilder.t) (field : Field.t)
  : Completion (option GraphQLType) :=
  match Field.type field with
  | TagString tag =>
      if isScalarCase tag then
        Normal (Map_get BUILTIN_SCALAR_TYPES tag)
      else if String.eqb tag "reference" then
        match Field.referenceTo field with
        | None => Throw "Cannot read properties of undefined (reading 'length')"
        | Some [target] =>
            (* referenceTo.length === 1 && this.graph.entityBySfdcName(referenceTo[0]) *)
            match Graph.entityBySfdcName (SchemaBuilder.graph this) target with
            | Some referencedEntity =>
                Normal (option_map ObjectType
                          (Map_get (SchemaBuilder.graphQLTypes this)
                                   (Entity.gqlName referencedEntity)))
            | None => Normal (Some GraphQLID)
            end
        | Some _ => Normal (Some GraphQLID)
        end
      else Normal None
  | TagUndefined | TagInherited _ => Normal None
  end.

(** [#buildField(entity, field)] *)
Definition buildField (this : SchemaBuilder.t) (entity : Entity.t) (field : Field.t)
  : Completion GraphQLFieldConfig.t :=
  type <- resolveFieldType this field ;;
  type <- (if negb (FieldConfig.nillable (Field.config field))
           then wrapped <- new_GraphQLNonNull type ;; Normal (Some wrapped)
           else Normal type) ;;
  Normal (GraphQLFieldConfig.mk type None).

(** The object type [#buildTypes] makes for one entity (lines 65-75): its
    name is the entity's [gqlName], and its [fields] closure captures the
    entity. *)
Definition entityType (entity : Entity.t) : GraphQLObjectType.t :=
  GraphQLObjectType.mk (Entity.gqlName entity) (EntityFields entity).

(** [#buildTypes()]: the returned map, and the builder with its
    [graphQLTypes] property assigned. *)
Definition buildTypes (this : SchemaBuilder.t)
  : Dict GraphQLObjectType.t * SchemaBuilder.t :=
  let entries := map entityType (Graph.entities (SchemaBuilder.graph this)) in
  let types :=
    Map_new (map (fun entry => (GraphQLObjectType.name entry, entry)) entries) in
  (types,
   SchemaBuilder.mk (SchemaBuilder.graph this) types (SchemaBuilder.graphQLScalars this)).

(** [#buildQuery()] *)
Definition buildQuery (this : SchemaBuilder.t) : GraphQLObjectType.t :=
  GraphQLObjectType.mk "Query" QueryFields.

(** [for (const x of l) body]: an exception leaves the loop. *)
Fixpoint forOf {A S : Type} (l : list A) (body : S -> A -> Completion S) (s : S)
  : Completion S :=
  match l with
  | [] => Normal s
  | a :: l' => s' <- body s a ;; forOf l' body s'
  end.

(** One turn of the loop of the root query's [fields] closure (lines 88-115). *)
Definition queryLoopBody (this : SchemaBuilder.t)
    (queries : Dict GraphQLFieldConfig.t) (entity : Entity.t)
  : Completion (Dict GraphQLFieldConfig.t) :=
  if negb (EntityConfig.queryable (Entity.config entity)) then
    Normal queries
  else
    let gqlEntityType :=
      option_map ObjectType
        (Map_get (SchemaBuilder.graphQLTypes this) (Entity.gqlName entity)) in
    let queries :=
      Object_set queries (Entity.gqlName entity ++ "_by_id")%string
        (GraphQLFieldConfig.mk gqlEntityType (Some [("id", GraphQLID)])) in
    listType <- new_GraphQLList gqlEntityType ;;
    limitType <- new_GraphQLNonNull (Some GraphQLInt) ;;
    Normal (Object_set queries (Entity.gqlName entity)
              (GraphQLFieldConfig.mk (Some listType)
                 (Some [("limit", limitType); ("offset", GraphQLInt)]))).

(** Calling a [fields] closure while the builder is in state [this]. *)
Definition forceFields (this : SchemaBuilder.t) (thunk : FieldsThunk)
  : Completion (Dict GraphQLFieldConfig.t) :=
  match thunk with
  | EntityFields entity =>
      entries <- mapM (fun field =>
                         config <- buildField this entity field ;;
                         Normal (Field.gqlName field, config))
                      (Entity.fields entity) ;;
      Normal (Object_fromEntries entries)
  | QueryFields =>
      forOf (Graph.entities (SchemaBuilder.graph this)) (queryLoopBody this) []
  end.

(** [GraphQLSchema]: the configuration it was made from, and the field maps
    its constructor obtained from the [fields] closures. *)
Module GraphQLSchema.
Record t : Type := mk {
  types : list GraphQLObjectType.t;
  query : GraphQLObjectType.t;
  typeFields : list (GraphQLObjectType.t * Dict GraphQLFieldConfig.t);
  queryFields : Dict GraphQLFieldConfig.t
}.
End GraphQLSchema.

(** *** What graphql-js checks when the schema is made *)

(** The character [U+0022], for the messages that quote a name. *)
Definition quote : string := String (ascii_of_nat 34) EmptyString.

Definition isNameStart (c : ascii) : bool :=
  let n := nat_of_ascii c in
  (Nat.leb 65 n && Nat.leb n 90) || (Nat.leb 97 n && Nat.leb n 122) || Nat.eqb n 95.

Definition isNameContinue (c : ascii) : bool :=
  let n := nat_of_ascii c in
  isNameStart c || (Nat.leb 48 n && Nat.leb n 57).

(** [assertName(name)] of graphql-js, which the constructors of the types,
    and [getFields] for the names of fields and arguments, apply: a name is
    not empty, holds letters, digits and underscores only, and does not
    start with a digit. *)
Definition assertName (name : string) : Completion string :=
  match name with
  | EmptyString => Throw "Expected name to be a non-empty string."
  | String c rest =>
      if negb (forallb isNameContinue (list_ascii_of_string rest)) then
        Throw ("Names must only contain [_a-zA-Z0-9] but " ++ quote ++ name ++ quote
               ++ " does not.")%string
      else if negb (isNameStart c) then
        Throw ("Names must start with [_a-zA-Z] but " ++ quote ++ name ++ quote
               ++ " does not.")%string
      else Normal name
  end.

(** [type.getFields()]: the [fields] closure is called, then the name of
    every field and of every argument is asserted. *)
Definition getFields (this : SchemaBuilder.t) (o : GraphQLObjectType.t)
  : Completion (Dict GraphQLFieldConfig.t) :=
  fields <- forceFields this (GraphQLObjectType.fields o) ;;
  _ <- mapM (fun entry : string * GraphQLFieldConfig.t =>
               _ <- assertName (fst entry) ;;
               mapM (fun arg : string * GraphQLType => assertName (fst arg))
                    (match GraphQLFieldConfig.args (snd entry) with
                     | Some args => args
                     | None => []
                     end))
            fields ;;
  Normal fields.

(** Equality of the values that stand for objects. An object type is
    identified by its name and by what its closure captures. *)
Definition option_eqb {A : Type} (eqb : A -> A -> bool) (x y : option A) : bool :=
  match x, y with
  | Some a, Some b => eqb a b
  | None, None => true
  | _, _ => false
  end.

Fixpoint list_eqb {A : Type} (eqb : A -> A -> bool) (l l' : list A) : bool :=
  match l, l' with
  | [], [] => true
  | a :: l, b :: l' => eqb a b && list_eqb eqb l l'
  | _, _ => false
  end.

Definition FieldConfig_eqb (x y : FieldConfig.t) : bool :=
  Bool.eqb (FieldConfig.nillable x) (FieldConfig.nillable y)
  && Bool.eqb (FieldConfig.createable x) (FieldConfig.createable y)
  && Bool.eqb (FieldConfig.updateable x) (FieldConfig.updateable y)
  && Bool.eqb (FieldConfig.filterable x) (FieldConfig.filterable y)
  && Bool.eqb (FieldConfig.groupable x) (FieldConfig.groupable y)
  && Bool.eqb (FieldConfig.sortable x) (FieldConfig.sortable y)
  && Bool.eqb (FieldConfig.aggregatable x) (FieldConfig.aggregatable y).

Definition TypeValue_eqb (x y : TypeValue) : bool :=
  match x, y with
  | TagUndefined, TagUndefined => true
  | TagString s, TagString s' => String.eqb s s'
  | TagInherited p, TagInherited p' => String.eqb p p'
  | _, _ => false
  end.

Definition Field_eqb (x y : Field.t) : bool :=
  TypeValue_eqb (Field.type x) (Field.type y)
  && option_eqb String.eqb (Field.sfdcName x) (Field.sfdcName y)
  && String.eqb (Field.gqlName x) (Field.gqlName y)
  && FieldConfig_eqb (Field.config x) (Field.config y)
  && option_eqb String.eqb (Field.sfdcRelationshipName x) (Field.sfdcRelationshipName y)
  && option_eqb String.eqb (Field.sfdcReferencedEntityName x)
       (Field.sfdcReferencedEntityName y)
  && option_eqb (list_eqb String.eqb) (Field.sfdcReferencedEntitiesNames x)
       (Field.sfdcReferencedEntitiesNames y)
  && option_eqb (list_eqb String.eqb) (Field.referenceTo x) (Field.referenceTo y).

Definition ChildRelationship_eqb (x y : ChildRelationship.t) : bool :=
  String.eqb (ChildRelationship.sfdcName x) (ChildRelationship.sfdcName y)
  && String.eqb (ChildRelationship.gqlName x) (ChildRelationship.gqlName y)
  && String.eqb (ChildRelationship.entity x) (ChildRelationship.entity y).

Definition EntityConfig_eqb (x y : EntityConfig.t) : bool :=
  Bool.eqb (EntityConfig.createable x) (EntityConfig.createable y)
  && Bool.eqb (EntityConfig.updateable x) (EntityConfig.updateable y)
  && Bool.eqb (EntityConfig.deletable x) (EntityConfig.deletable y)
  && Bool.eqb (EntityConfig.queryable x) (EntityConfig.queryable y).

Definition Entity_eqb (x y : Entity.t) : bool :=
  String.eqb (Entity.sfdcName x) (Entity.sfdcName y)
  && String.eqb (Entity.gqlName x) (Entity.gqlName y)
  && EntityConfig_eqb (Entity.config x) (Entity.config y)
  && list_eqb Field_eqb (Entity.fields x) (Entity.fields y)
  && list_eqb ChildRelationship_eqb (Entity.childRelationships x)
       (Entity.childRelationships y).

Definition GraphQLObjectType_eqb (x y : GraphQLObjectType.t) : bool :=
  String.eqb (GraphQLObjectType.name x) (GraphQLObjectType.name y)
  && match GraphQLObjectType.fields x, GraphQLObjectType.fields y with
     | EntityFields e, EntityFields e' => Entity_eqb e e'
     | QueryFields, QueryFields => true
     | _, _ => false
     end.

Fixpoint GraphQLType_eqb (x y : GraphQLType) : bool :=
  match x, y with
  | GraphQLID, GraphQLID => true
  | GraphQLString, GraphQLString => true
  | GraphQLBoolean, GraphQLBoolean => true
  | GraphQLInt, GraphQLInt => true
  | GraphQLFloat, GraphQLFloat => true
  | GraphQLScalarType n, GraphQLScalarType n' => String.eqb n n'
  | ObjectType o, ObjectType o' => GraphQLObjectType_eqb o o'
  | GraphQLList t, GraphQLList t' => GraphQLType_eqb t t'
  | GraphQLNonNull t, GraphQLNonNull t' => GraphQLType_eqb t t'
  | _, _ => false
  end.

(** [getNamedType(type)] and the name of the named type. *)
Fixpoint getNamedType (t : GraphQLType) : GraphQLType :=
  match t with
  | GraphQLList t' => getNamedType t'
  | GraphQLNonNull t' => getNamedType t'
  | _ => t
  end.

Definition typeName (t : GraphQLType) : string :=
  match getNamedType t with
  | GraphQLID => "ID"
  | GraphQLString => "String"
  | GraphQLBoolean => "Boolean"
  | GraphQLInt => "Int"
  | GraphQLFloat => "Float"
  | GraphQLScalarType name => name
  | ObjectType o => GraphQLObjectType.name o
  | GraphQLList _ => ""
  | GraphQLNonNull _ => ""
  end.

(** The named types a field map refers to: the type of each field that has
    one, then the types of its arguments. *)
Definition fieldMapTypes (fields : Dict GraphQLFieldConfig.t) : list GraphQLType :=
  flat_map (fun entry : string * GraphQLFieldConfig.t =>
              match GraphQLFieldConfig.type (snd entry) with
              | Some t => [getNamedType t]
              | None => []
              end
              ++ map (fun arg : string * GraphQLType => getNamedType (snd arg))
                     (match GraphQLFieldConfig.args (snd entry) with
                      | Some args => args
                      | None => []
                      end))
           fields.

(** The set of referenced types: an object is added once. *)
Definition Set_add (set : list GraphQLType) (t : GraphQLType) : list GraphQLType :=
  if existsb (GraphQLType_eqb t) set then set else set ++ [t].

(** The types of graphql-js every schema refers to: [Boolean] and [String]
    through the arguments of the standard directives, and the introspection
    types through [__Schema]. *)
Definition directiveArgumentTypes : list GraphQLType := [GraphQLBoolean; GraphQLString].

Definition introspectionTypeNames : list string :=
  [ "__Schema"; "__Type"; "__TypeKind"; "__Field"; "__InputValue"; "__EnumValue";
    "__Directive"; "__DirectiveLocation" ].

Fixpoint firstDuplicate (seen names : list string) : option string :=
  match names with
  | [] => None
  | name :: rest =>
      if existsb (String.eqb name) seen then Some name
      else firstDuplicate (name :: seen) rest
  end.

(** [new GraphQLSchema({ types, query })], as [buildSchema] calls it: the
    types are the registry's values, made by [new GraphQLObjectType], and
    the builder is in state [this].
    - The constructor of an object type asserts its name; that happens when
      [#buildTypes] and [#buildQuery] make the types, before any closure
      runs, and is raised here, first.
    - The schema's constructor then walks the types it is given and the
      query type, in this order, and calls [getFields] on each, which calls
      the [fields] closure. Every object type a field refers to comes from
      the registry and so is one of [types]: the walk meets no other object
      type.
    - Last, it throws when two different types it has met have one name.
      The order in which the walk meets the types is flattened here; it
      decides only which name the message gives when several are taken
      twice.
    [typeFields] pairs each type of [types] with its field map. *)
Definition new_GraphQLSchema (this : SchemaBuilder.t)
    (types : list GraphQLObjectType.t) (query : GraphQLObjectType.t)
  : Completion GraphQLSchema.t :=
  _ <- mapM (fun o => assertName (GraphQLObjectType.name o)) types ;;
  _ <- assertName (GraphQLObjectType.name query) ;;
  typeFields <- mapM (fun o =>
                        fields <- getFields this o ;;
                        Normal (o, fields))
                     types ;;
  queryFields <- getFields this query ;;
  let referenced :=
    fold_left Set_add
      (map ObjectType types
       ++ flat_map (fun typeField : GraphQLObjectType.t * Dict GraphQLFieldConfig.t =>
                      fieldMapTypes (snd typeField))
                   typeFields
       ++ ObjectType query :: fieldMapTypes queryFields
       ++ directiveArgumentTypes)
      [] in
  match firstDuplicate [] (map typeName referenced ++ introspectionTypeNames) with
  | Some name =>
      Throw ("Schema must contain uniquely named types but contains multiple types named "
             ++ quote ++ name ++ quote ++ ".")%string
  | None => Normal (GraphQLSchema.mk types query typeFields queryFields)
  end.

(** [buildSchema()] *)
Definition buildSchema (this : SchemaBuilder.t) : Completion GraphQLSchema.t :=
  let '(types, this) := buildTypes this in
  let query := buildQuery this in
  new_GraphQLSchema this (Map_values types) query.

(** ** The entity module: raw records and their normalization *)

(** The raw records of [./sfdc/types/describe-sobject.js], with the
    properties the code reads. A record comes from parsed JSON, so [type] is
    any string, and [name] may be missing ([None]); [relationshipName] is
    [null] ([None]) or a string. *)
Module SObjectField.
Record t : Type := mk {
  name : option string;
  type : string;
  nillable : bool;
  createable : bool;
  updateable : bool;
  filterable : bool;
  groupable : bool;
  sortable : bool;
  aggregatable : bool;
  relationshipName : option string;
  referenceTo : list string;
  polymorphicForeignKey : bool
}.
End SObjectField.

Module SObjectChildRelationship.
Record t : Type := mk {
  relationshipName : option string;
  childSObject : string
}.
End SObjectChildRelationship.

Module DescribeSObjectResult.
Record t : Type := mk {
  name : string;
  createable : bool;
  updateable : bool;
  deletable : bool;
  queryable : bool;
  fields : list SObjectField.t;
  childRelationships : list SObjectChildRelationship.t
}.
End DescribeSObjectResult.

(** The own properties of the object literal
    [SOBJECT_FIELD_SCALAR_TYPE_MAPPING]. Its type annotation makes its keys
    exactly the members of [SObjectFieldType] other than ['reference']. *)
Definition SOBJECT_FIELD_SCALAR_TYPE_MAPPING : Dict FieldType :=
  [ ("string", STRING);
    ("boolean", BOOLEAN);
    ("int", INT);
    ("double", FLOAT);
    ("date", DATE);
    ("datetime", DATETIME);
    ("base64", BASE64);
    ("id", ID);
    ("currency", CURRENCY);
    ("textarea", TEXTAREA);
    ("percent", PERCENT);
    ("phone", PHONE);
    ("url", URL);
    ("email", EMAIL);
    ("combobox", COMBOBOX);
    ("picklist", PICKLIST);
    ("multipicklist", MULTI_PICKLIST);
    ("anyType", ANY_TYPE);
    ("address", ADDRESS);
    ("location", LOCATION) ].

(** The members of [SObjectFieldType]: the keys above and ['reference']. *)
Definition SObjectFieldType : list string :=
  map fst SOBJECT_FIELD_SCALAR_TYPE_MAPPING ++ ["reference"].

(** The properties every object literal inherits from [Object.prototype]. *)
Definition Object_prototype : list string :=
  [ "constructor"; "__defineGetter__"; "__defineSetter__"; "hasOwnProperty";
    "__lookupGetter__"; "__lookupSetter__"; "isPrototypeOf";
    "propertyIsEnumerable"; "toString"; "valueOf"; "__proto__";
    "toLocaleString" ].

(** [SOBJECT_FIELD_SCALAR_TYPE_MAPPING[type]] *)
Definition scalarTypeMapping (type : string) : TypeValue :=
  match Map_get SOBJECT_FIELD_SCALAR_TYPE_MAPPING type with
  | Some kind => TagString (FieldType_value kind)
  | None =>
      if existsb (String.eqb type) Object_prototype
      then TagInherited type
      else TagUndefined
  end.

(** [!s] for a value that is a string, [null] or [undefined]. *)
Definition falsy (s : option string) : bool :=
  match s with
  | None => true
  | Some s => String.eqb s ""
  end.

(** [array.filter(x => x !== undefined)] *)
Fixpoint filterDefined {A : Type} (l : list (option A)) : list A :=
  match l with
  | [] => []
  | Some a :: l' => a :: filterDefined l'
  | None :: l' => filterDefined l'
  end.

Section Normalizer.

(** [camelCase] of [./utils/string.js] is not part of the sources: it is a
    parameter. Its argument is a string or [undefined]; it returns a string
    or throws. *)
Variable camelCase : option string -> Completion string.

(** [createField(sObjectField)]: [Normal None] is [return undefined]. *)
Definition createField (sObjectField : SObjectField.t) : Completion (option Field.t) :=
  let sfdcName := SObjectField.name sObjectField in
  let type := SObjectField.type sObjectField in
  let config :=
    FieldConfig.mk
      (SObjectField.nillable sObjectField)
      (SObjectField.createable sObjectField)
      (SObjectField.updateable sObjectField)
      (SObjectField.filterable sObjectField)
      (SObjectField.groupable sObjectField)
      (SObjectField.sortable sObjectField)
      (SObjectField.aggregatable sObjectField) in
  if String.eqb type "reference" then
    if falsy (SObjectField.relationshipName sObjectField) then
      Normal None
    else
      gqlName <- camelCase (SObjectField.relationshipName sObjectField) ;;
      if SObjectField.polymorphicForeignKey sObjectField then
        Normal (Some (Field.mk
          (TagString (FieldType_value POLYMORPHIC_REFERENCE))
          sfdcName gqlName config
          (SObjectField.relationshipName sObjectField)
          None
          (Some (SObjectField.referenceTo sObjectField))
          None))
      else
        Normal (Some (Field.mk
          (TagString (FieldType_value REFERENCE))
          sfdcName gqlName config
          (SObjectField.relationshipName sObjectField)
          (nth_error (SObjectField.referenceTo sObjectField) 0)
          None
          None))
  else
    gqlName <- camelCase (SObjectField.name sObjectField) ;;
    Normal (Some (Field.mk (scalarTypeMapping type) sfdcName gqlName config
                    None None None None)).

(** [createChildRelationShip(relationship)] *)
Definition createChildRelationShip (relationship : SObjectChildRelationship.t)
  : Completion (option ChildRelationship.t) :=
  match SObjectChildRelationship.relationshipName relationship with
  | None => Normal None
  | Some relationshipName =>
      gqlName <- camelCase (Some relationshipName) ;;
      Normal (Some (ChildRelationship.mk relationshipName gqlName
                      (SObjectChildRelationship.childSObject relationship)))
  end.

(** [createEntity(sObject)] *)
Definition createEntity (sObject : DescribeSObjectResult.t) : Completion Entity.t :=
  fields <- mapM createField (DescribeSObjectResult.fields sObject) ;;
  let fields := filterDefined fields in
  childRelationships <-
    mapM createChildRelationShip (DescribeSObjectResult.childRelationships sObject) ;;
  let childRelationships := filterDefined childRelationships in
  Normal (Entity.mk
            (DescribeSObjectResult.name sObject)
            (DescribeSObjectResult.name sObject)
            (EntityConfig.mk
               (DescribeSObjectResult.createable sObject)
               (DescribeSObjectResult.updateable sObject)
               (DescribeSObjectResult.deletable sObject)
               (DescribeSObjectResult.queryable sObject))
            fields
            childRelationships).

End Normalizer.

(** The type guards of the entity module. *)
Definition isScalarField (field : Field.t) : bool :=
  match Field.type field with
  | TagString s =>
      negb (String.eqb s (FieldType_value REFERENCE))
      && negb (String.eqb s (FieldType_value POLYMORPHIC_REFERENCE))
  | _ => true
  end.

Definition isReferenceField (field : Field.t) : bool :=
  match Field.type field with
  | TagString s => String.eqb s (FieldType_value REFERENCE)
  | _ => false
  end.

Definition isPolymorphicReference (field : Field.t) : bool :=
  match Field.type field with
  | TagString s => String.eqb s (FieldType_value POLYMORPHIC_REFERENCE)
  | _ => false
  end.

(** ** Sample graph: two entities that refer to each other *)

Definition plainConfig (nillable : bool) : FieldConfig.t :=
  FieldConfig.mk nillable true true true true true false.

Definition scalarField (tag name : string) (nillable : bool) : Field.t :=
  Field.mk (TagString tag) (Some name) name (plainConfig nillable) None None None None.

Definition referenceField (name gqlName : string) (targets : list string)
    (nillable : bool) : Field.t :=
  Field.mk (TagString "reference") (Some name) gqlName (plainConfig nillable)
    None None None (Some targets).

Definition accountEntity : Entity.t :=
  Entity.mk "Account" "Account" (EntityConfig.mk true true true true)
    [ scalarField "id" "id" false;
      scalarField "string" "name" false;
      referenceField "PrimaryContactId" "primaryContact" ["Contact"] true ]
    [].

Definition contactEntity : Entity.t :=
  Entity.mk "Contact" "Contact" (EntityConfig.mk true true true false)
    [ scalarField "id" "id" true;
      referenceField "AccountId" "account" ["Account"] true;
      referenceField "OwnerId" "owner" ["User"; "Group"] false ]
    [].

Definition sampleGraph : Graph.t := Graph.mk [accountEntity; contactEntity].
Definition sampleGraphSwapped : Graph.t := Graph.mk [contactEntity; accountEntity].

(** ** Notions the statements use *)

(** The builder when the [fields] closures run: [buildSchema] has called
    [#buildTypes] on a fresh builder for the graph. *)
Definition afterBuildTypes (g : Graph.t) : SchemaBuilder.t :=
  snd (buildTypes (SchemaBuilder.new g)).

(** A field of a kind [#buildField] has a [case] for, with the property the
    case reads. *)
Definition supportedField (field : Field.t) : bool :=
  match Field.type field with
  | TagString tag =>
      isScalarCase tag
      || (String.eqb tag "reference"
          && match Field.referenceTo field with Some _ => true | None => false end)
  | _ => false
  end.

(** The two entries one turn of the root query's loop writes for a
    queryable entity whose object type is [o]. *)
Definition entityOperations (entity : Entity.t) (o : GraphQLObjectType.t)
  : Dict GraphQLFieldConfig.t :=
  [ ((Entity.gqlName entity ++ "_by_id")%string,
     GraphQLFieldConfig.mk (Some (ObjectType o)) (Some [("id", GraphQLID)]));
    (Entity.gqlName entity,
     GraphQLFieldConfig.mk (Some (GraphQLList (ObjectType o)))
       (Some [("limit", GraphQLNonNull GraphQLInt); ("offset", GraphQLInt)])) ].

(** A key an assignment to a plain object writes like a [Map] does, at the
    end or in place: not [__proto__], and not an array index. *)
Definition ordinaryKey (key : string) : bool :=
  negb (String.eqb key "__proto__")
  && match arrayIndex key with Some _ => false | None => true end.

(** The names the root query's closure writes for the queryable entities. *)
Definition operationNames (g : Graph.t) : list string :=
  flat_map (fun entity =>
              if EntityConfig.queryable (Entity.config entity)
              then [(Entity.gqlName entity ++ "_by_id")%string; Entity.gqlName entity]
              else [])
           (Graph.entities g).

(** ** Sample raw records *)

(** [sampleCamelCase] stands for [camelCase] in the examples: it lower-cases
    the first letter of a string and throws on [undefined]. *)
Definition lowerAscii (c : ascii) : ascii :=
  let n := nat_of_ascii c in
  if Nat.leb 65 n && Nat.leb n 90 then ascii_of_nat (n + 32) else c.

Definition sampleCamelCase (s : option string) : Completion string :=
  match s with
  | Some (String c rest) => Normal (String (lowerAscii c) rest)
  | Some EmptyString => Normal ""
  | None => Throw "Cannot read properties of undefined (reading 'charAt')"
  end.

Definition rawField (name : option string) (type : string) (nillable : bool)
    (relationshipName : option string) (referenceTo : list string)
    (polymorphicForeignKey : bool) : SObjectField.t :=
  SObjectField.mk name type nillable true true true true true false
    relationshipName referenceTo polymorphicForeignKey.

(** A polymorphic lookup, as [Task.OwnerId] is described. *)
Definition ownerRecord : SObjectField.t :=
  rawField (Some "OwnerId") "reference" true (Some "Owner") ["User"; "Group"] true.

(** Two targets and no polymorphic marker. *)
Definition parentRecord : SObjectField.t :=
  rawField (Some "ParentId") "reference" true (Some "Parent") ["Account"; "Contact"] false.

(** A source type tag that is not a member of [SObjectFieldType]. *)
Definition encryptedRecord : SObjectField.t :=
  rawField (Some "Secret__c") "encryptedstring" true None [] false.

(** A reference record without a source name. *)
Definition namelessRecord : SObjectField.t :=
  rawField None "reference" true (Some "Account") ["Account"] false.

(** A reference record without a relationship name. *)
Definition delegatedApproverRecord : SObjectField.t :=
  rawField (Some "DelegatedApproverId") "reference" true None ["User"] false.

Definition sampleSObject : DescribeSObjectResult.t :=
  DescribeSObjectResult.mk "Contact" true true true true
    [ rawField (Some "Id") "id" false None [] false;
      namelessRecord;
      delegatedApproverRecord;
      rawField (Some "LastName") "string" false None [] false ]
    [ SObjectChildRelationship.mk (Some "Cases") "Case";
      SObjectChildRelationship.mk None "CaseHistory" ].

(** The field [createField] makes of [ownerRecord]. *)
Definition ownerField : Field.t :=
  Field.mk (TagString "PolymorphicReference") (Some "OwnerId") "owner"
    (plainConfig true) (Some "Owner") None (Some ["User"; "Group"]) None.

(** ** The assertions of the entity module *)

Section Assertions.

(** The text a property inherited from [Object.prototype] gives inside a
    template string (the source text of a function, ...): the engine's, so a
    parameter here. *)
Variable inheritedToString : string -> string.

(** [`${field.type}`] *)
Definition templateOfType (v : TypeValue) : string :=
  match v with
  | TagUndefined => "undefined"
  | TagString s => s
  | TagInherited property => inheritedToString property
  end.

(** [assertScalarField(field)] *)
Definition assertScalarField (field : Field.t) : Completion unit :=
  if negb (isScalarField field) then
    Throw ("Expected a scalar field but received a "
           ++ templateOfType (Field.type field) ++ ".")%string
  else Normal tt.

(** [assertReferenceField(field)] *)
Definition assertReferenceField (field : Field.t) : Completion unit :=
  if negb (isReferenceField field) then
    Throw ("Expected a reference field but received a "
           ++ templateOfType (Field.type field) ++ ".")%string
  else Normal tt.

End Assertions.

(** ** Notions the further statements use *)

(** A raw field record [createField] makes a field of: any record but a
    reference without a relationship name (lines 325-331). *)
Definition keptRecord (sObjectField : SObjectField.t) : bool :=
  negb (String.eqb (SObjectField.type sObjectField) "reference"
        && falsy (SObjectField.relationshipName sObjectField)).

(** The argument [createField] gives [camelCase] for a record it keeps: the
    relationship name of a reference, the name of any other record. *)
Definition camelCaseArgument (sObjectField : SObjectField.t) : option string :=
  if String.eqb (SObjectField.type sObjectField) "reference"
  then SObjectField.relationshipName sObjectField
  else SObjectField.name sObjectField.

(** The [config] object [createField] builds (lines 315-323). *)
Definition configOf (sObjectField : SObjectField.t) : FieldConfig.t :=
  FieldConfig.mk
    (SObjectField.nillable sObjectField)
    (SObjectField.createable sObjectField)
    (SObjectField.updateable sObjectField)
    (SObjectField.filterable sObjectField)
    (SObjectField.groupable sObjectField)
    (SObjectField.sortable sObjectField)
    (SObjectField.aggregatable sObjectField).

(** A field whose tag is one of the labels of [#buildField]'s [switch]. *)
Definition handledTag (field : Field.t) : bool :=
  match Field.type field with
  | TagString tag => isScalarCase tag || String.eqb tag "reference"
  | _ => false
  end.

(** Two entities of one display name, and a third one between them. *)
Definition standardAccount : Entity.t :=
  Entity.mk "Account" "Account" (EntityConfig.mk true true true true)
    [scalarField "id" "id" false] [].

Definition externalAccount : Entity.t :=
  Entity.mk "Account__x" "Account" (EntityConfig.mk true true true true)
    [scalarField "string" "name" true] [].

Definition shadowedGraph : Graph.t :=
  Graph.mk [standardAccount; contactEntity; externalAccount].

(** A raw entity with an empty relationship name on a reference field and
    on a child relationship. *)
Definition emptyNamesSObject : DescribeSObjectResult.t :=
  DescribeSObjectResult.mk "Account" true true true true
    [ rawField (Some "ParentId") "reference" true (Some "") ["Account"] false ]
    [ SObjectChildRelationship.mk (Some "Cases") "Case";
      SObjectChildRelationship.mk None "CaseHistory";
      SObjectChildRelationship.mk (Some "") "Attachment" ].

(** An entity with two fields of one display name. *)
Definition caseEntity : Entity.t :=
  Entity.mk "Case" "Case" (EntityConfig.mk true true true true)
    [ scalarField "string" "owner" true;
      scalarField "id" "id" false;
      referenceField "OwnerId" "owner" ["User"; "Group"] false ]
    [].

(** The entity [createEntity] makes of [sampleSObject], and a graph of it. *)
Definition normalizedContact : Entity.t :=
  Eval cbv in
    match createEntity sampleCamelCase sampleSObject with
    | Normal entity => entity
    | Throw _ => contactEntity
    end.

Definition normalizedGraph : Graph.t := Graph.mk [normalizedContact].

(** An entity with a compound field that is not nillable. *)
Definition leadEntity : Entity.t :=
  Entity.mk "Lead" "Lead" (EntityConfig.mk true true true false)
    [scalarField "address" "address" false] [].

Definition leadGraph : Graph.t := Graph.mk [leadEntity].

(** A single reference as the entity module has it: the raw record, and the
    field [createField] makes of it. *)
Definition accountRecord : SObjectField.t :=
  rawField (Some "AccountId") "reference" true (Some "Account") ["Account"] false.

Definition accountField : Field.t :=
  Field.mk (TagString "Reference") (Some "AccountId") "account"
    (plainConfig true) (Some "Account") (Some "Account") None None.

(** Two raw entities that refer to each other, the entities [createEntity]
    makes of them, and the graphs of the two in both orders. *)
Definition mutualAccountSObject : DescribeSObjectResult.t :=
  DescribeSObjectResult.mk "Account" true true true true
    [ rawField (Some "Name") "string" true None [] false;
      rawField (Some "PrimaryContactId") "reference" true (Some "PrimaryContact")
        ["Contact"] false ]
    [].

Definition mutualContactSObject : DescribeSObjectResult.t :=
  DescribeSObjectResult.mk "Contact" true true true false
    [ accountRecord ] [].

Definition mutualAccount : Entity.t :=
  Eval cbv in
    match createEntity sampleCamelCase mutualAccountSObject with
    | Normal entity => entity
    | Throw _ => accountEntity
    end.

Definition mutualContact : Entity.t :=
  Eval cbv in
    match createEntity sampleCamelCase mutualContactSObject with
    | Normal entity => entity
    | Throw _ => contactEntity
    end.

Definition primaryContactField : Field.t :=
  Field.mk (TagString "Reference") (Some "PrimaryContactId") "primaryContact"
    (plainConfig true) (Some "PrimaryContact") (Some "Contact") None None.

Definition mutualGraph : Graph.t := Graph.mk [mutualAccount; mutualContact].
Definition mutualGraphSwapped : Graph.t := Graph.mk [mutualContact; mutualAccount].

(** * Properties *)

(** ** Dictionaries *)

Lemma Map_get_set_eq {V : Type} (m : Dict V) (k : string) (v : V) :
  Map_get (Map_set m k v) k = Some v.
Proof.
  induction m as [|[k' v'] m IH]; simpl.
  - now rewrite String.eqb_refl.
  - destruct (String.eqb k' k) eqn:E; simpl.
    + now rewrite String.eqb_refl.
    + now rewrite E.
Qed.

Lemma Map_get_set_neq {V : Type} (m : Dict V) (k k' : string) (v : V) :
  k <> k' -> Map_get (Map_set m k v) k' = Map_get m k'.
Proof.
  intros Hne. induction m as [|[k0 v0] m IH]; simpl.
  - destruct (String.eqb_spec k k'); [contradiction | reflexivity].
  - destruct (String.eqb_spec k0 k) as [->|Hk]; simpl.
    + destruct (String.eqb_spec k k'); [contradiction | reflexivity].
    + destruct (String.eqb_spec k0 k'); [reflexivity | exact IH].
Qed.

Lemma Map_set_fresh {V : Type} (m : Dict V) (k : string) (v : V) :
  ~ In k (map fst m) -> Map_set m k v = m ++ [(k, v)].
Proof.
  induction m as [|[k0 v0] m IH]; simpl; intros Hfresh.
  - reflexivity.
  - destruct (String.eqb_spec k0 k) as [->|Hk].
    + exfalso. apply Hfresh. now left.
    + f_equal. apply IH. intros Hin. apply Hfresh. now right.
Qed.

Lemma Map_set_keys_incl {V : Type} (m : Dict V) (k : string) (v : V) (k' : string) :
  In k' (map fst (Map_set m k v)) <-> k' = k \/ In k' (map fst m).
Proof.
  induction m as [|[k0 v0] m IH]; simpl.
  - intuition.
  - destruct (String.eqb_spec k0 k) as [->|Hk]; simpl.
    + intuition.
    + rewrite IH. intuition.
Qed.

Lemma fold_set_fresh {V : Type} (entries m : Dict V) :
  NoDup (map fst (m ++ entries)) ->
  fold_left (fun m entry => Map_set m (fst entry) (snd entry)) entries m = m ++ entries.
Proof.
  revert m. induction entries as [|[k v] entries IH]; intros m Hnd; simpl.
  - now rewrite app_nil_r.
  - rewrite Map_set_fresh.
    + rewrite IH; rewrite <- app_assoc; [reflexivity | exact Hnd].
    + rewrite map_app in Hnd. simpl in Hnd.
      apply NoDup_remove_2 in Hnd. intros Hin. apply Hnd.
      apply in_or_app. now left.
Qed.

Lemma Map_new_NoDup {V : Type} (entries : Dict V) :
  NoDup (map fst entries) -> Map_new entries = entries.
Proof.
  intros Hnd. unfold Map_new. now rewrite fold_set_fresh.
Qed.

Lemma Map_get_In {V : Type} (m : Dict V) (k : string) (v : V) :
  NoDup (map fst m) -> In (k, v) m -> Map_get m k = Some v.
Proof.
  induction m as [|[k0 v0] m IH]; simpl; intros Hnd Hin; [contradiction|].
  inversion Hnd as [|? ? Hnotin Hnd']; subst.
  destruct Hin as [Heq|Hin].
  - inversion Heq; subst. now rewrite String.eqb_refl.
  - destruct (String.eqb_spec k0 k) as [->|Hk].
    + exfalso. apply Hnotin. apply (in_map fst) in Hin. exact Hin.
    + now apply IH.
Qed.

Lemma Map_get_Some_In {V : Type} (m : Dict V) (k : string) (v : V) :
  Map_get m k = Some v -> In (k, v) m.
Proof.
  induction m as [|[k0 v0] m IH]; simpl; intros H; [discriminate|].
  destruct (String.eqb_spec k0 k) as [->|Hk].
  - inversion H; subst. now left.
  - right. now apply IH.
Qed.

Lemma Map_get_None {V : Type} (m : Dict V) (k : string) :
  ~ In k (map fst m) -> Map_get m k = None.
Proof.
  induction m as [|[k0 v0] m IH]; simpl; intros H; [reflexivity|].
  destruct (String.eqb_spec k0 k) as [->|Hk].
  - exfalso. apply H. now left.
  - apply IH. intros Hin. apply H. now right.
Qed.

Lemma Map_get_key {V : Type} (m : Dict V) (k : string) :
  In k (map fst m) -> exists v, Map_get m k = Some v.
Proof.
  induction m as [|[k0 v0] m IH]; cbn [map fst In Map_get]; intros Hin; [contradiction|].
  destruct (String.eqb_spec k0 k) as [->|Hk].
  - now exists v0.
  - destruct Hin as [Heq|Hin]; [contradiction|now apply IH].
Qed.

Lemma Map_set_In {V : Type} (m : Dict V) (k : string) (v : V) (entry : string * V) :
  In entry (Map_set m k v) -> entry = (k, v) \/ In entry m.
Proof.
  induction m as [|[k0 v0] m IH]; cbn [Map_set In].
  - intros [Heq|[]]. now left.
  - destruct (String.eqb k0 k); cbn [In].
    + intros [Heq|Hin]; [now left|right; now right].
    + intros [Heq|Hin]; [right; now left|].
      destruct (IH Hin) as [H|H]; [now left|right; now right].
Qed.

Lemma fold_set_keys {V : Type} (entries m : Dict V) (k : string) :
  In k (map fst entries) \/ In k (map fst m) ->
  In k (map fst (fold_left (fun m entry => Map_set m (fst entry) (snd entry)) entries m)).
Proof.
  revert m. induction entries as [|[k0 v0] entries IH]; intros m Hin; cbn [fold_left].
  - destruct Hin as [[]|Hin]. exact Hin.
  - apply IH. cbn [map fst In] in Hin. cbn [fst snd].
    rewrite Map_set_keys_incl. intuition.
Qed.

Lemma fold_set_In {V : Type} (entries m : Dict V) (entry : string * V) :
  In entry (fold_left (fun m entry => Map_set m (fst entry) (snd entry)) entries m) ->
  In entry entries \/ In entry m.
Proof.
  revert m. induction entries as [|[k0 v0] entries IH]; intros m Hin; cbn [fold_left] in Hin.
  - now right.
  - destruct (IH _ Hin) as [H|H]; [left; now right|].
    cbn [fst snd] in H. apply Map_set_In in H.
    destruct H as [->|H]; [left; now left|now right].
Qed.

(** Every key of the entries has a value in [new Map(entries)], and that
    value is the value of one of the entries with that key. *)
Lemma Map_new_get {V : Type} (entries : Dict V) (k : string) :
  In k (map fst entries) ->
  exists v, Map_get (Map_new entries) k = Some v /\ In (k, v) entries.
Proof.
  intros Hin. unfold Map_new.
  destruct (Map_get_key _ k (fold_set_keys entries [] k (or_introl Hin))) as [v Hget].
  exists v. split; [exact Hget|].
  apply Map_get_Some_In in Hget. apply fold_set_In in Hget.
  destruct Hget as [H|[]]. exact H.
Qed.

(** ** The type registry after [#buildTypes] *)

Lemma afterBuildTypes_graph (g : Graph.t) :
  SchemaBuilder.graph (afterBuildTypes g) = g.
Proof. reflexivity. Qed.

Lemma afterBuildTypes_registry (g : Graph.t) :
  SchemaBuilder.graphQLTypes (afterBuildTypes g)
  = Map_new (map (fun entity => (Entity.gqlName entity, entityType entity))
                 (Graph.entities g)).
Proof.
  unfold afterBuildTypes, buildTypes. simpl. now rewrite map_map.
Qed.

Lemma registry_lookup (g : Graph.t) (entity : Entity.t) :
  In entity (Graph.entities g) ->
  exists registered,
    Map_get (SchemaBuilder.graphQLTypes (afterBuildTypes g)) (Entity.gqlName entity)
    = Some (entityType registered)
    /\ In registered (Graph.entities g)
    /\ Entity.gqlName registered = Entity.gqlName entity.
Proof.
  intros Hin. rewrite afterBuildTypes_registry.
  destruct (Map_new_get
              (map (fun entity => (Entity.gqlName entity, entityType entity))
                   (Graph.entities g))
              (Entity.gqlName entity)) as [o [Hget Ho]].
  - rewrite map_map. cbn [fst]. now apply (in_map Entity.gqlName).
  - apply in_map_iff in Ho. destruct Ho as [registered [Heq Hreg]].
    assert (Hname : Entity.gqlName registered = Entity.gqlName entity)
      by congruence.
    assert (Ho : o = entityType registered) by congruence.
    exists registered. rewrite Hget, Ho. auto.
Qed.

Lemma registry_lookup_NoDup (g : Graph.t) (entity : Entity.t) :
  NoDup (map Entity.gqlName (Graph.entities g)) ->
  In entity (Graph.entities g) ->
  Map_get (SchemaBuilder.graphQLTypes (afterBuildTypes g)) (Entity.gqlName entity)
  = Some (entityType entity).
Proof.
  intros Hnd Hin. rewrite afterBuildTypes_registry.
  assert (Hkeys : map fst (map (fun entity => (Entity.gqlName entity, entityType entity))
                               (Graph.entities g))
                  = map Entity.gqlName (Graph.entities g))
    by (rewrite map_map; reflexivity).
  rewrite Map_new_NoDup by now rewrite Hkeys.
  apply Map_get_In; [now rewrite Hkeys|].
  apply in_map_iff. now exists entity.
Qed.

Lemma entityBySfdcName_In (g : Graph.t) (sfdcName : string) (entity : Entity.t) :
  Graph.entityBySfdcName g sfdcName = Some entity ->
  In entity (Graph.entities g) /\ Entity.sfdcName entity = sfdcName.
Proof.
  unfold Graph.entityBySfdcName. intros H. apply find_some in H.
  destruct H as [Hin Heq]. split; [exact Hin|]. now apply String.eqb_eq.
Qed.

Lemma entityBySfdcName_NoDup (g : Graph.t) (entity : Entity.t) :
  NoDup (map Entity.sfdcName (Graph.entities g)) ->
  In entity (Graph.entities g) ->
  Graph.entityBySfdcName g (Entity.sfdcName entity) = Some entity.
Proof.
  unfold Graph.entityBySfdcName. induction (Graph.entities g) as [|e l IH]; simpl;
    intros Hnd Hin; [contradiction|].
  inversion Hnd as [|? ? Hnotin Hnd']; subst.
  destruct Hin as [->|Hin].
  - now rewrite String.eqb_refl.
  - destruct (String.eqb_spec (Entity.sfdcName e) (Entity.sfdcName entity)) as [Heq|Hne].
    + exfalso. apply Hnotin. rewrite Heq. now apply (in_map Entity.sfdcName).
    + now apply IH.
Qed.

(** ** [#buildField] *)

Lemma BUILTIN_SCALAR_TYPES_defined (tag : string) :
  isScalarCase tag = true ->
  exists t, Map_get BUILTIN_SCALAR_TYPES tag = Some t /\ isNonNullType t = false.
Proof.
  unfold isScalarCase. intros H. apply existsb_exists in H.
  destruct H as [label [Hin Heq]]. apply String.eqb_eq in Heq. subst label.
  unfold scalarCases in Hin. simpl in Hin.
  repeat (destruct Hin as [<-|Hin]; [eexists; split; reflexivity|]).
  contradiction.
Qed.

Lemma reference_not_scalarCase : isScalarCase "reference" = false.
Proof. reflexivity. Qed.

(** A supported field always gets a base type, and that type is nullable. *)
Lemma resolveFieldType_supported (g : Graph.t) (field : Field.t) :
  supportedField field = true ->
  exists base,
    resolveFieldType (afterBuildTypes g) field = Normal (Some base)
    /\ isNonNullType base = false.
Proof.
  unfold supportedField, resolveFieldType.
  destruct (Field.type field) as [|tag|]; try discriminate.
  destruct (isScalarCase tag) eqn:Hscalar; cbn [orb].
  - intros _. destruct (BUILTIN_SCALAR_TYPES_defined tag Hscalar) as [t [Ht Hnull]].
    exists t. now rewrite Ht.
  - destruct (String.eqb tag "reference"); cbn [andb]; [|discriminate].
    destruct (Field.referenceTo field) as [[|target [|]]|]; try discriminate; intros _;
      try (exists GraphQLID; split; reflexivity).
    destruct (Graph.entityBySfdcName (SchemaBuilder.graph (afterBuildTypes g)) target)
      as [referencedEntity|] eqn:Hfind.
    + rewrite afterBuildTypes_graph in Hfind. apply entityBySfdcName_In in Hfind.
      destruct (registry_lookup g referencedEntity) as [registered [Hget _]];
        [tauto|].
      rewrite Hget. cbn [option_map]. eexists. split; reflexivity.
    + exists GraphQLID. split; reflexivity.
Qed.

(** Whatever the builder's state, the [switch] never assigns a non-null
    type. *)
Lemma resolveFieldType_nullable (this : SchemaBuilder.t) (field : Field.t)
    (base : GraphQLType) :
  resolveFieldType this field = Normal (Some base) -> isNonNullType base = false.
Proof.
  unfold resolveFieldType.
  destruct (Field.type field) as [|tag|]; try discriminate.
  destruct (isScalarCase tag) eqn:Hscalar.
  - destruct (BUILTIN_SCALAR_TYPES_defined tag Hscalar) as [t [Ht Hnull]].
    rewrite Ht. intros Heq. inversion Heq. now subst base.
  - destruct (String.eqb tag "reference"); [|discriminate].
    destruct (Field.referenceTo field) as [[|target [|]]|]; try discriminate;
      try (intros Heq; inversion Heq; reflexivity).
    destruct (Graph.entityBySfdcName (SchemaBuilder.graph this) target).
    + destruct (Map_get (SchemaBuilder.graphQLTypes this) _); cbn [option_map];
        intros Heq; inversion Heq; reflexivity.
    + intros Heq; inversion Heq; reflexivity.
Qed.

Lemma buildField_wrap (this : SchemaBuilder.t) (entity : Entity.t) (field : Field.t)
    (base : GraphQLType) :
  resolveFieldType this field = Normal (Some base) ->
  isNonNullType base = false ->
  buildField this entity field
  = Normal (GraphQLFieldConfig.mk
              (Some (if FieldConfig.nillable (Field.config field)
                     then base else GraphQLNonNull base))
              None).
Proof.
  intros Hbase Hnullable. unfold buildField. rewrite Hbase. cbn [bind].
  destruct (FieldConfig.nillable (Field.config field)); cbn [negb bind];
    [reflexivity|].
  unfold new_GraphQLNonNull. now rewrite Hnullable.
Qed.

Lemma resolveFieldType_target (g : Graph.t) (field : Field.t) (target : string)
    (referencedEntity : Entity.t) :
  Field.type field = TagString "reference" ->
  Field.referenceTo field = Some [target] ->
  NoDup (map Entity.gqlName (Graph.entities g)) ->
  Graph.entityBySfdcName g target = Some referencedEntity ->
  resolveFieldType (afterBuildTypes g) field
  = Normal (Some (ObjectType (entityType referencedEntity))).
Proof.
  intros Htype Href Hnd Hfind.
  unfold resolveFieldType. rewrite Htype, reference_not_scalarCase, Href.
  cbn [String.eqb Ascii.eqb Bool.eqb]. rewrite afterBuildTypes_graph, Hfind.
  apply entityBySfdcName_In in Hfind. destruct Hfind as [Hin _].
  now rewrite (registry_lookup_NoDup g referencedEntity Hnd Hin).
Qed.

Lemma resolveFieldType_fallback (g : Graph.t) (field : Field.t)
    (referenceTo : list string) :
  Field.type field = TagString "reference" ->
  Field.referenceTo field = Some referenceTo ->
  length referenceTo <> 1
  \/ (exists target, referenceTo = [target]
                     /\ Graph.entityBySfdcName g target = None) ->
  resolveFieldType (afterBuildTypes g) field = Normal (Some GraphQLID).
Proof.
  intros Htype Href Hcase. unfold resolveFieldType.
  rewrite Htype, reference_not_scalarCase, Href.
  cbn [String.eqb Ascii.eqb Bool.eqb]. rewrite afterBuildTypes_graph.
  destruct Hcase as [Hlen|[target [-> Hnone]]].
  - destruct referenceTo as [|t [|t' l]]; try reflexivity.
    exfalso. now apply Hlen.
  - now rewrite Hnone.
Qed.

(** ** The root query's closure *)

Lemma queryFields_returns (g : Graph.t) :
  exists queries, forceFields (afterBuildTypes g) QueryFields = Normal queries.
Proof.
  cbn [forceFields]. rewrite afterBuildTypes_graph.
  assert (Hall : forall entity, In entity (Graph.entities g) ->
            exists o, Map_get (SchemaBuilder.graphQLTypes (afterBuildTypes g))
                              (Entity.gqlName entity) = Some o).
  { intros entity Hin.
    destruct (registry_lookup g entity Hin) as [registered [Hget _]]. eauto. }
  revert Hall. generalize (@nil (string * GraphQLFieldConfig.t)) as queries.
  induction (Graph.entities g) as [|entity l IH]; intros queries Hall; cbn [forOf].
  - now exists queries.
  - unfold queryLoopBody at 1.
    destruct (EntityConfig.queryable (Entity.config entity)); cbn [negb bind].
    + destruct (Hall entity (or_introl eq_refl)) as [o Hget]. rewrite Hget.
      cbn [option_map new_GraphQLList new_GraphQLNonNull isNonNullType bind].
      apply IH. intros e Hin. apply Hall. now right.
    + apply IH. intros e Hin. apply Hall. now right.
Qed.

(** ** C10: the registry has an entry for every entity *)

(** C10. When [buildSchema] runs, the closures are called in the state
    [#buildTypes] left: there the registry is the map made from one object
    type per entity, keyed by the entity's [gqlName]; the lookup
    [this.graphQLTypes.get(entity.gqlName)] finds an object type of that
    name for every entity of the graph, and the root query's closure
    returns without throwing. *)
Theorem buildQuery_lookup_succeeds (g : Graph.t) :
  buildSchema (SchemaBuilder.new g)
  = new_GraphQLSchema (afterBuildTypes g)
      (Map_values (SchemaBuilder.graphQLTypes (afterBuildTypes g)))
      (buildQuery (afterBuildTypes g))
  /\ SchemaBuilder.graphQLTypes (afterBuildTypes g)
     = Map_new (map (fun entity => (Entity.gqlName entity, entityType entity))
                    (Graph.entities g))
  /\ Forall (fun entity =>
               exists o,
                 Map_get (SchemaBuilder.graphQLTypes (afterBuildTypes g))
                         (Entity.gqlName entity) = Some o
                 /\ GraphQLObjectType.name o = Entity.gqlName entity)
            (Graph.entities g)
  /\ exists queries, forceFields (afterBuildTypes g) QueryFields = Normal queries.
Proof.
  split; [reflexivity|]. split; [apply afterBuildTypes_registry|].
  split; [|apply queryFields_returns].
  apply Forall_forall. intros entity Hin.
  destruct (registry_lookup g entity Hin) as [registered [Hget [_ Hname]]].
  exists (entityType registered). split; [exact Hget|exact Hname].
Qed.

(** ** The case ['reference'] of [#buildField], when a field reaches it *)

(** A field that carries the switch's own label ['reference'] and a
    [referenceTo] list (the shape of a raw record, not of a field of the
    entity module), in a graph whose entities have distinct [gqlName]s:
    when the list holds exactly one name and the graph has an entity of
    that source name, the type before wrapping is that entity's object
    type; when the list holds no name or several, or the one name is
    unknown to the graph, it is [GraphQLID]. In both cases [#buildField]
    returns, with the type wrapped by the field's nullability. *)
Lemma buildField_reference (g : Graph.t) (entity : Entity.t) (field : Field.t)
    (referenceTo : list string) :
  Field.type field = TagString "reference" ->
  Field.referenceTo field = Some referenceTo ->
  NoDup (map Entity.gqlName (Graph.entities g)) ->
  (forall target referencedEntity,
      referenceTo = [target] ->
      Graph.entityBySfdcName g target = Some referencedEntity ->
      resolveFieldType (afterBuildTypes g) field
      = Normal (Some (ObjectType (entityType referencedEntity)))
      /\ buildField (afterBuildTypes g) entity field
         = Normal (GraphQLFieldConfig.mk
                     (Some (if FieldConfig.nillable (Field.config field)
                            then ObjectType (entityType referencedEntity)
                            else GraphQLNonNull (ObjectType (entityType referencedEntity))))
                     None))
  /\ (length referenceTo <> 1
      \/ (exists target, referenceTo = [target]
                         /\ Graph.entityBySfdcName g target = None) ->
      resolveFieldType (afterBuildTypes g) field = Normal (Some GraphQLID)
      /\ buildField (afterBuildTypes g) entity field
         = Normal (GraphQLFieldConfig.mk
                     (Some (if FieldConfig.nillable (Field.config field)
                            then GraphQLID else GraphQLNonNull GraphQLID))
                     None))
  /\ exists config, buildField (afterBuildTypes g) entity field = Normal config.
Proof.
  intros Htype Href Hnd. split; [|split].
  - intros target referencedEntity Hone Hfind. subst referenceTo.
    pose proof (resolveFieldType_target g field target referencedEntity
                  Htype Href Hnd Hfind) as Hbase.
    split; [exact Hbase|]. now apply buildField_wrap.
  - intros Hcase.
    pose proof (resolveFieldType_fallback g field referenceTo Htype Href Hcase)
      as Hbase.
    split; [exact Hbase|]. now apply buildField_wrap.
  - assert (Hsupported : supportedField field = true).
    { unfold supportedField. rewrite Htype, Href, reference_not_scalarCase.
      reflexivity. }
    destruct (resolveFieldType_supported g field Hsupported) as [base [Hbase Hnull]].
    eexists. now apply (buildField_wrap _ _ _ base).
Qed.

Lemma sampleGraph_gqlNames : NoDup (map Entity.gqlName (Graph.entities sampleGraph)).
Proof.
  repeat (constructor; [cbn; intuition discriminate|]). constructor.
Qed.

Lemma buildField_reference_example :
  buildField (afterBuildTypes sampleGraph) contactEntity
    (referenceField "AccountId" "account" ["Account"] true)
  = Normal (GraphQLFieldConfig.mk (Some (ObjectType (entityType accountEntity))) None)
  /\ buildField (afterBuildTypes sampleGraph) contactEntity
       (referenceField "OwnerId" "owner" ["User"; "Group"] false)
     = Normal (GraphQLFieldConfig.mk (Some (GraphQLNonNull GraphQLID)) None).
Proof.
  split.
  - exact (proj2 (proj1 (buildField_reference sampleGraph contactEntity
             (referenceField "AccountId" "account" ["Account"] true) ["Account"]
             eq_refl eq_refl sampleGraph_gqlNames)
           "Account" accountEntity eq_refl eq_refl)).
  - apply (buildField_reference sampleGraph contactEntity
             (referenceField "OwnerId" "owner" ["User"; "Group"] false) ["User"; "Group"]
             eq_refl eq_refl sampleGraph_gqlNames).
    left. cbn. lia.
Defined.

(** ** C4: nullability wrapping *)

(** C4. For every field, in every state of the builder: when
    [#buildField] returns a type, that type is a non-null type if and only
    if [nillable] is false. For every field the builder has a case for (a
    scalar kind, a reference that resolves to an entity type, a reference
    that falls back to the identifier type), [#buildField] does return:
    it first resolves a base type, which is never a non-null type, and then,
    as its last step, wraps it in [GraphQLNonNull] when [nillable] is false
    and leaves it as it is otherwise. *)
Theorem buildField_nullability (g : Graph.t) (entity : Entity.t) (field : Field.t) :
  (forall this emitted args,
      buildField this entity field = Normal (GraphQLFieldConfig.mk (Some emitted) args) ->
      (isNonNullType emitted = true <-> FieldConfig.nillable (Field.config field) = false))
  /\ (supportedField field = true ->
      exists base,
        resolveFieldType (afterBuildTypes g) field = Normal (Some base)
        /\ isNonNullType base = false
        /\ buildField (afterBuildTypes g) entity field
           = Normal (GraphQLFieldConfig.mk
                       (Some (if FieldConfig.nillable (Field.config field)
                              then base else GraphQLNonNull base))
                       None)).
Proof.
  split.
  - intros this emitted args. unfold buildField.
    destruct (resolveFieldType this field) as [resolved|m] eqn:Hbase; cbn [bind];
      [|discriminate].
    destruct (FieldConfig.nillable (Field.config field)); cbn [negb bind].
    + intros Heq. inversion Heq. subst resolved.
      rewrite (resolveFieldType_nullable this field emitted Hbase).
      split; discriminate.
    + destruct (new_GraphQLNonNull resolved) as [wrapped|m] eqn:Hwrap; cbn [bind];
        [|discriminate].
      intros Heq. inversion Heq. subst wrapped.
      unfold new_GraphQLNonNull in Hwrap. destruct resolved as [t|]; [|discriminate].
      destruct (isNonNullType t); [discriminate|].
      inversion Hwrap. split; reflexivity.
  - intros Hsupported.
    destruct (resolveFieldType_supported g field Hsupported) as [base [Hbase Hnullable]].
    exists base. repeat split; auto using buildField_wrap.
Qed.

Lemma buildField_nullability_witness :
  (exists base,
      resolveFieldType (afterBuildTypes sampleGraph) (scalarField "string" "name" false)
      = Normal (Some base)
      /\ isNonNullType base = false
      /\ buildField (afterBuildTypes sampleGraph) accountEntity
           (scalarField "string" "name" false)
         = Normal (GraphQLFieldConfig.mk (Some (GraphQLNonNull base)) None))
  /\ (exists base,
      resolveFieldType (afterBuildTypes sampleGraph)
        (referenceField "AccountId" "account" ["Account"] true)
      = Normal (Some base)
      /\ isNonNullType base = false
      /\ buildField (afterBuildTypes sampleGraph) contactEntity
           (referenceField "AccountId" "account" ["Account"] true)
         = Normal (GraphQLFieldConfig.mk (Some base) None))
  /\ (isNonNullType (GraphQLNonNull GraphQLID) = true <-> false = false).
Proof.
  split; [|split].
  - exact (proj2 (buildField_nullability sampleGraph accountEntity
                    (scalarField "string" "name" false)) eq_refl).
  - exact (proj2 (buildField_nullability sampleGraph contactEntity
                    (referenceField "AccountId" "account" ["Account"] true)) eq_refl).
  - exact (proj1 (buildField_nullability sampleGraph contactEntity
                    (referenceField "OwnerId" "owner" ["User"; "Group"] false))
             (afterBuildTypes sampleGraph) (GraphQLNonNull GraphQLID) None eq_refl).
Defined.

(** ** C5: a field of the polymorphic variant gets no type *)

(** C5. [#buildField] has no [case] for the tag of the polymorphic variant
    ([FieldType.POLYMORPHIC_REFERENCE]): the local variable [type] stays
    unassigned. A nillable field is returned with [type: undefined]; for a
    field that is not nillable, [new GraphQLNonNull(undefined)] throws. The
    identifier type is not produced. *)
Theorem buildField_polymorphic_reference (this : SchemaBuilder.t) (entity : Entity.t)
    (field : Field.t) :
  Field.type field = TagString (FieldType_value POLYMORPHIC_REFERENCE) ->
  resolveFieldType this field = Normal None
  /\ buildField this entity field
     = if FieldConfig.nillable (Field.config field)
       then Normal (GraphQLFieldConfig.mk None None)
       else Throw "Expected undefined to be a GraphQL nullable type.".
Proof.
  intros Htype.
  assert (Hbase : resolveFieldType this field = Normal None)
    by (unfold resolveFieldType; now rewrite Htype).
  split; [exact Hbase|].
  unfold buildField. rewrite Hbase. cbn [bind].
  now destruct (FieldConfig.nillable (Field.config field)).
Qed.

Lemma buildField_polymorphic_reference_witness :
  createField sampleCamelCase ownerRecord = Normal (Some ownerField)
  /\ resolveFieldType (afterBuildTypes sampleGraph) ownerField = Normal None
  /\ buildField (afterBuildTypes sampleGraph) contactEntity ownerField
     = Normal (GraphQLFieldConfig.mk None None).
Proof.
  split; [reflexivity|].
  exact (buildField_polymorphic_reference (afterBuildTypes sampleGraph) contactEntity
           ownerField eq_refl).
Defined.

(** ** C6: the table of scalar types *)

(** C6, as the code has it. Every label of the scalar cases of
    [#buildField] has an entry in [BUILTIN_SCALAR_TYPES], and a field with
    that tag resolves to it; [picklist] maps to [GraphQLString],
    [multipicklist] to a list of [GraphQLString], and [combobox] to a scalar
    type of its own, named [Combobox]. *)
Theorem BUILTIN_SCALAR_TYPES_total :
  Forall (fun tag =>
            exists t,
              Map_get BUILTIN_SCALAR_TYPES tag = Some t
              /\ forall this field,
                   Field.type field = TagString tag ->
                   resolveFieldType this field = Normal (Some t))
         scalarCases
  /\ map fst BUILTIN_SCALAR_TYPES = scalarCases
  /\ Map_get BUILTIN_SCALAR_TYPES "picklist" = Some GraphQLString
  /\ Map_get BUILTIN_SCALAR_TYPES "multipicklist" = Some (GraphQLList GraphQLString)
  /\ Map_get BUILTIN_SCALAR_TYPES "combobox" = Some (GraphQLScalarType "Combobox").
Proof.
  split; [|repeat split].
  unfold scalarCases.
  repeat (constructor;
          [eexists; split;
           [reflexivity
           |intros this field Htype; unfold resolveFieldType; rewrite Htype; reflexivity]|]).
  constructor.
Qed.

(** C6 as stated fails: the table has no entry for [address] and
    [location], which the entity module maps to kinds of their own, and the
    entry of [combobox] is not the string type. *)
Lemma BUILTIN_SCALAR_TYPES_counterexample :
  Map_get SOBJECT_FIELD_SCALAR_TYPE_MAPPING "address" = Some ADDRESS
  /\ Map_get BUILTIN_SCALAR_TYPES "address" = None
  /\ Map_get SOBJECT_FIELD_SCALAR_TYPE_MAPPING "location" = Some LOCATION
  /\ Map_get BUILTIN_SCALAR_TYPES "location" = None
  /\ Map_get BUILTIN_SCALAR_TYPES "combobox" = Some (GraphQLScalarType "Combobox")
  /\ Map_get BUILTIN_SCALAR_TYPES "string" = Some GraphQLString
  /\ resolveFieldType (afterBuildTypes sampleGraph) (scalarField "address" "billingAddress" true)
     = Normal None.
Proof. repeat split. Qed.

(** ** The normalizer *)

Lemma mapM_Normal {A B : Type} (f : A -> Completion B) (l : list A) :
  (forall a, In a l -> exists b, f a = Normal b) ->
  exists bs, mapM f l = Normal bs /\ Forall2 (fun a b => f a = Normal b) l bs.
Proof.
  induction l as [|a l IH]; intros Hall; cbn [mapM].
  - exists []. split; [reflexivity|constructor].
  - destruct (Hall a (or_introl eq_refl)) as [b Hb].
    destruct IH as [bs [Hbs Hrel]]; [intros a' Hin; apply Hall; now right|].
    exists (b :: bs). rewrite Hb, Hbs. split; [reflexivity|now constructor].
Qed.

Lemma mapM_Throw {A B : Type} (f : A -> Completion B) (l : list A) (a : A)
    (message : string) :
  In a l -> f a = Throw message -> exists message', mapM f l = Throw message'.
Proof.
  induction l as [|a0 l IH]; cbn [In mapM]; intros Hin Hthrow; [contradiction|].
  destruct Hin as [->|Hin].
  - rewrite Hthrow. now exists message.
  - destruct (f a0) as [b|m0]; cbn [bind]; [|now exists m0].
    destruct (IH Hin Hthrow) as [message' ->]. now exists message'.
Qed.

Lemma Forall2_In_left {A B : Type} (R : A -> B -> Prop) (l : list A) (bs : list B) (a : A) :
  Forall2 R l bs -> In a l -> exists b, In b bs /\ R a b.
Proof.
  induction 1 as [|a0 b0 l bs Hab _ IH]; cbn [In]; intros Hin; [contradiction|].
  destruct Hin as [->|Hin].
  - exists b0. split; [now left|exact Hab].
  - destruct (IH Hin) as [b [Hb Hr]]. exists b. split; [now right|exact Hr].
Qed.

Lemma filterDefined_In {A : Type} (l : list (option A)) (a : A) :
  In (Some a) l -> In a (filterDefined l).
Proof.
  induction l as [|[a0|] l IH]; cbn [In filterDefined]; intros Hin.
  - contradiction.
  - destruct Hin as [Heq|Hin]; [inversion Heq; now left|right; now apply IH].
  - destruct Hin as [Heq|Hin]; [discriminate|now apply IH].
Qed.

(** ** C7: the kind of a scalar record *)

(** C7, as the code has it. For a record whose source type tag is not
    ['reference'] (and whose name [camelCase] accepts), [createField]
    returns a field whose [type] is what indexing the table with the tag
    gives: for each of the twenty keys of the table, the one [FieldType] the
    table holds for it; for any other tag no error is raised, and the
    field's [type] is [undefined] (or the property of [Object.prototype] of
    that name), not a [FieldType]. *)
Theorem createField_scalar_kind (camelCase : option string -> Completion string)
    (sObjectField : SObjectField.t) (gqlName : string) :
  SObjectField.type sObjectField <> "reference" ->
  camelCase (SObjectField.name sObjectField) = Normal gqlName ->
  exists field,
    createField camelCase sObjectField = Normal (Some field)
    /\ Field.type field = scalarTypeMapping (SObjectField.type sObjectField)
    /\ (In (SObjectField.type sObjectField) (map fst SOBJECT_FIELD_SCALAR_TYPE_MAPPING) ->
        exists kind,
          Map_get SOBJECT_FIELD_SCALAR_TYPE_MAPPING (SObjectField.type sObjectField)
          = Some kind
          /\ Field.type field = TagString (FieldType_value kind))
    /\ (~ In (SObjectField.type sObjectField) SObjectFieldType ->
        Field.type field = TagUndefined
        \/ Field.type field = TagInherited (SObjectField.type sObjectField)).
Proof.
  intros Hscalar Hname. unfold createField.
  destruct (String.eqb_spec (SObjectField.type sObjectField) "reference") as [Heq|_];
    [contradiction|].
  rewrite Hname. cbn [bind]. eexists. split; [reflexivity|].
  cbn [Field.type]. split; [reflexivity|]. unfold scalarTypeMapping. split.
  - intros Hin. destruct (Map_get_key _ _ Hin) as [kind Hkind].
    exists kind. now rewrite Hkind.
  - intros Hout. rewrite Map_get_None.
    + destruct (existsb _ Object_prototype); auto.
    + intros Hin. apply Hout. unfold SObjectFieldType. apply in_or_app. now left.
Qed.

Lemma createField_scalar_kind_witness :
  (exists field,
      createField sampleCamelCase (rawField (Some "BillingAddress") "address" true None [] false)
      = Normal (Some field)
      /\ Field.type field = TagString "Address")
  /\ (exists field,
      createField sampleCamelCase encryptedRecord = Normal (Some field)
      /\ Field.type field = TagUndefined).
Proof.
  split.
  - destruct (createField_scalar_kind sampleCamelCase
                (rawField (Some "BillingAddress") "address" true None [] false)
                "billingAddress" ltac:(discriminate) eq_refl)
      as [field [Hfield [Htype _]]].
    exists field. split; [exact Hfield|exact Htype].
  - destruct (createField_scalar_kind sampleCamelCase encryptedRecord
                "secret__c" ltac:(discriminate) eq_refl)
      as [field [Hfield [Htype _]]].
    exists field. split; [exact Hfield|exact Htype].
Defined.

(** C7 as stated fails: a record whose tag is outside [SObjectFieldType] is
    not rejected; [createField] returns a field whose [type] is
    [undefined]. *)
Lemma createField_unknown_tag_counterexample :
  existsb (String.eqb "encryptedstring") SObjectFieldType = false
  /\ createField sampleCamelCase encryptedRecord
     = Normal (Some (Field.mk TagUndefined (Some "Secret__c") "secret__c"
                       (plainConfig true) None None None None)).
Proof. split; reflexivity. Qed.

(** ** C8: single and polymorphic references *)

(** C8, as the code has it. A record of tag ['reference'] with a
    relationship name (that [camelCase] accepts) becomes a polymorphic
    reference field exactly when its [polymorphicForeignKey] marker is set,
    and a single reference field otherwise; the number of names in
    [referenceTo] plays no part. The single reference keeps the first name
    of [referenceTo], the polymorphic one keeps them all. *)
Theorem createField_reference_kind (camelCase : option string -> Completion string)
    (sObjectField : SObjectField.t) (gqlName : string) :
  SObjectField.type sObjectField = "reference" ->
  falsy (SObjectField.relationshipName sObjectField) = false ->
  camelCase (SObjectField.relationshipName sObjectField) = Normal gqlName ->
  exists field,
    createField camelCase sObjectField = Normal (Some field)
    /\ Field.gqlName field = gqlName
    /\ (isPolymorphicReference field = true
        <-> SObjectField.polymorphicForeignKey sObjectField = true)
    /\ (isReferenceField field = true
        <-> SObjectField.polymorphicForeignKey sObjectField = false)
    /\ (SObjectField.polymorphicForeignKey sObjectField = true ->
        Field.sfdcReferencedEntitiesNames field
        = Some (SObjectField.referenceTo sObjectField))
    /\ (SObjectField.polymorphicForeignKey sObjectField = false ->
        Field.sfdcReferencedEntityName field
        = nth_error (SObjectField.referenceTo sObjectField) 0).
Proof.
  intros Htype Hrel Hname. unfold createField.
  rewrite Htype, Hrel, Hname. cbn [String.eqb Ascii.eqb Bool.eqb bind].
  destruct (SObjectField.polymorphicForeignKey sObjectField);
    (eexists; split; [reflexivity|]); cbn; intuition congruence.
Qed.

Lemma createField_reference_kind_witness :
  (exists field,
      createField sampleCamelCase ownerRecord = Normal (Some field)
      /\ isPolymorphicReference field = true)
  /\ (exists field,
      createField sampleCamelCase parentRecord = Normal (Some field)
      /\ isReferenceField field = true).
Proof.
  split.
  - destruct (createField_reference_kind sampleCamelCase ownerRecord "owner"
                eq_refl eq_refl eq_refl) as [field [Hfield [_ [Hpoly _]]]].
    exists field. split; [exact Hfield|]. now apply Hpoly.
  - destruct (createField_reference_kind sampleCamelCase parentRecord "parent"
                eq_refl eq_refl eq_refl) as [field [Hfield [_ [_ [Hsingle _]]]]].
    exists field. split; [exact Hfield|]. now apply Hsingle.
Defined.

(** C8 as stated fails: a record that declares two reference targets and
    has no polymorphic marker is made a single reference field, to the
    first of the two. *)
Lemma createField_two_targets_counterexample :
  SObjectField.referenceTo parentRecord = ["Account"; "Contact"]
  /\ SObjectField.polymorphicForeignKey parentRecord = false
  /\ createField sampleCamelCase parentRecord
     = Normal (Some (Field.mk (TagString "Reference") (Some "ParentId") "parent"
                       (plainConfig true) (Some "Parent") (Some "Account") None None))
  /\ isPolymorphicReference
       (Field.mk (TagString "Reference") (Some "ParentId") "parent"
          (plainConfig true) (Some "Parent") (Some "Account") None None) = false.
Proof. repeat split. Qed.

(** ** C9: a record without a source name *)

(** C9, as the code has it. [createField] reads the record's name without
    checking it. A reference record that has no source name but has a
    relationship name is normalized like any other: when the records of the
    entity normalize without an exception, [createEntity] returns the
    entity, and the field made of that record, whose [sfdcName] is
    [undefined], is in its field list. Nothing catches an exception either:
    one thrown for a record ends [createEntity] as a whole. *)
Theorem createEntity_nameless_reference (camelCase : option string -> Completion string)
    (sObject : DescribeSObjectResult.t) (record : SObjectField.t) :
  In record (DescribeSObjectResult.fields sObject) ->
  SObjectField.name record = None ->
  (SObjectField.type record = "reference" ->
   falsy (SObjectField.relationshipName record) = false ->
   (forall r, In r (DescribeSObjectResult.fields sObject) ->
              exists f, createField camelCase r = Normal f) ->
   (forall c, In c (DescribeSObjectResult.childRelationships sObject) ->
              exists r, createChildRelationShip camelCase c = Normal r) ->
   exists entity field,
     createField camelCase record = Normal (Some field)
     /\ Field.sfdcName field = None
     /\ createEntity camelCase sObject = Normal entity
     /\ In field (Entity.fields entity))
  /\ (forall message,
        createField camelCase record = Throw message ->
        exists message', createEntity camelCase sObject = Throw message').
Proof.
  intros Hin Hnameless. split.
  - intros Htype Hrel Hfields Hchildren.
    destruct (Hfields record Hin) as [made Hmade].
    assert (Hfield : exists field, made = Some field /\ Field.sfdcName field = None).
    { revert Hmade. unfold createField. rewrite Htype, Hrel, Hnameless.
      cbn [String.eqb Ascii.eqb Bool.eqb].
      destruct (camelCase (SObjectField.relationshipName record)) as [gqlName|m];
        cbn [bind]; [|discriminate].
      destruct (SObjectField.polymorphicForeignKey record); intros Heq;
        inversion Heq; eexists; split; reflexivity. }
    destruct Hfield as [field [-> Hsfdc]].
    destruct (mapM_Normal (createField camelCase) _ Hfields) as [fields [Hmap Hrel2]].
    destruct (mapM_Normal (createChildRelationShip camelCase) _ Hchildren)
      as [children [Hmapc _]].
    destruct (Forall2_In_left _ _ _ _ Hrel2 Hin) as [made' [Hin' Hmade']].
    assert (made' = Some field) by congruence. subst made'.
    eexists. exists field. split; [exact Hmade|]. split; [exact Hsfdc|].
    unfold createEntity. rewrite Hmap, Hmapc. cbn [bind]. split; [reflexivity|].
    cbn [Entity.fields]. now apply filterDefined_In.
  - intros message Hthrow.
    destruct (mapM_Throw (createField camelCase) _ record message Hin Hthrow)
      as [message' Hmap].
    exists message'. unfold createEntity. now rewrite Hmap.
Qed.

Lemma createEntity_nameless_reference_witness :
  exists entity field,
    createField sampleCamelCase namelessRecord = Normal (Some field)
    /\ Field.sfdcName field = None
    /\ createEntity sampleCamelCase sampleSObject = Normal entity
    /\ In field (Entity.fields entity).
Proof.
  apply (createEntity_nameless_reference sampleCamelCase sampleSObject namelessRecord).
  - cbn. auto.
  - reflexivity.
  - reflexivity.
  - reflexivity.
  - intros r Hin. cbn in Hin.
    repeat (destruct Hin as [<-|Hin]; [eexists; reflexivity|]). contradiction.
  - intros c Hin. cbn in Hin.
    repeat (destruct Hin as [<-|Hin]; [eexists; reflexivity|]). contradiction.
Defined.

(** C9 as stated fails: the record without a source name is not rejected;
    it becomes a field of the entity, between the fields of the records
    around it. *)
Lemma createEntity_nameless_counterexample :
  SObjectField.name namelessRecord = None
  /\ createField sampleCamelCase namelessRecord
     = Normal (Some (Field.mk (TagString "Reference") None "account"
                       (plainConfig true) (Some "Account") (Some "Account") None None))
  /\ exists entity,
       createEntity sampleCamelCase sampleSObject = Normal entity
       /\ map Field.sfdcName (Entity.fields entity)
          = [Some "Id"; None; Some "LastName"]
       /\ map Field.gqlName (Entity.fields entity) = ["id"; "account"; "lastName"].
Proof.
  split; [reflexivity|]. split; [reflexivity|].
  eexists. split; [reflexivity|]. split; reflexivity.
Qed.

(** ** C3: the operations of the root query *)

Lemma Object_set_ordinary {V : Type} (o : Dict V) (key : string) (value : V) :
  ordinaryKey key = true -> Object_set o key value = Map_set o key value.
Proof.
  unfold ordinaryKey, Object_set.
  destruct (String.eqb key "__proto__"); cbn [negb andb]; [discriminate|].
  destruct (arrayIndex key); [discriminate|reflexivity].
Qed.

Lemma parseDigits_by_id (name : string) (acc : N) :
  parseDigits (name ++ "_by_id") acc = None.
Proof.
  revert acc. induction name as [|c name IH]; intros acc.
  - reflexivity.
  - cbn [append parseDigits]. destruct (digitValue c); [apply IH|reflexivity].
Qed.

(** The name of a by-id operation is never [__proto__] nor an array index. *)
Lemma by_id_ordinary (name : string) : ordinaryKey (name ++ "_by_id") = true.
Proof.
  unfold ordinaryKey. apply andb_true_intro. split.
  - apply negb_true_iff, String.eqb_neq.
    destruct name as [|c1 [|c2 [|c3 [|c4 [|c5 [|c6 [|c7 [|c8 [|c9 [|c10 name]]]]]]]]]];
      cbn [append]; discriminate.
  - destruct name as [|c name]; [reflexivity|].
    unfold arrayIndex. cbn [append].
    destruct (Ascii.eqb c "0" && negb (String.eqb (name ++ "_by_id") ""))%bool;
      [reflexivity|].
    change (String c (name ++ "_by_id")) with (String c name ++ "_by_id")%string.
    now rewrite parseDigits_by_id.
Qed.

Lemma forOf_queryLoopBody (this : SchemaBuilder.t) (l : list Entity.t)
    (queries : Dict GraphQLFieldConfig.t) :
  (forall entity, In entity l ->
     Map_get (SchemaBuilder.graphQLTypes this) (Entity.gqlName entity)
     = Some (entityType entity)) ->
  (forall entity, In entity l ->
     EntityConfig.queryable (Entity.config entity) = true ->
     ordinaryKey (Entity.gqlName entity) = true) ->
  NoDup (map fst queries
         ++ flat_map (fun entity =>
                        if EntityConfig.queryable (Entity.config entity)
                        then [(Entity.gqlName entity ++ "_by_id")%string;
                              Entity.gqlName entity]
                        else []) l) ->
  forOf l (queryLoopBody this) queries
  = Normal (queries
            ++ flat_map (fun entity =>
                           if EntityConfig.queryable (Entity.config entity)
                           then entityOperations entity (entityType entity)
                           else []) l).
Proof.
  revert queries. induction l as [|entity l IH]; intros queries Hget Hordinary Hnd;
    cbn [forOf flat_map].
  - now rewrite app_nil_r.
  - cbn [flat_map] in Hnd. unfold queryLoopBody at 1.
    destruct (EntityConfig.queryable (Entity.config entity)) eqn:Hqueryable;
      cbn [negb bind].
    + rewrite (Hget entity (or_introl eq_refl)).
      cbn [option_map new_GraphQLList new_GraphQLNonNull isNonNullType bind].
      rewrite (Object_set_ordinary queries) by apply by_id_ordinary.
      rewrite Object_set_ordinary
        by (apply (Hordinary entity); [now left|exact Hqueryable]).
      cbn [app] in Hnd.
      assert (Hfirst : ~ In (Entity.gqlName entity ++ "_by_id")%string (map fst queries)).
      { apply NoDup_remove_2 in Hnd. intros Hin. apply Hnd.
        apply in_or_app. now left. }
      rewrite (Map_set_fresh queries) by exact Hfirst.
      assert (Hnd' : NoDup ((map fst queries ++ [(Entity.gqlName entity ++ "_by_id")%string])
                            ++ Entity.gqlName entity
                               :: flat_map (fun entity =>
                                    if EntityConfig.queryable (Entity.config entity)
                                    then [(Entity.gqlName entity ++ "_by_id")%string;
                                          Entity.gqlName entity]
                                    else []) l)).
      { rewrite <- app_assoc. exact Hnd. }
      rewrite Map_set_fresh.
      * rewrite IH.
        -- unfold entityOperations. rewrite <- !app_assoc. reflexivity.
        -- intros e Hin. apply Hget. now right.
        -- intros e Hin. apply Hordinary. now right.
        -- rewrite !map_app. cbn [map fst]. rewrite <- !app_assoc.
           cbn [app]. exact Hnd.
      * rewrite map_app. cbn [map fst].
        apply NoDup_remove_2 in Hnd'. intros Hin. apply Hnd'.
        apply in_or_app. now left.
    + cbn [app]. apply IH; [| |exact Hnd].
      * intros e Hin. apply Hget. now right.
      * intros e Hin. apply Hordinary. now right.
Qed.

(** C3. The display names of the queryable entities are taken to be
    ordinary keys of an object: not [__proto__] (an assignment to it sets
    the prototype and adds no field) and not array indices (an object lists
    those first). Then one turn of the root query's loop writes nothing for
    an entity that is not queryable, and for a queryable entity exactly two
    entries, each at the end of the object or in the place of an entry of
    the same name: [<gqlName>_by_id], of the object type registered under
    the entity's name, with the one argument [id] of the nullable type
    [GraphQLID]; and [<gqlName>], of the list type of that object type,
    with the arguments [limit] (non-null [GraphQLInt]) and [offset]
    (nullable [GraphQLInt]). In a graph whose entities have distinct
    [gqlName]s and whose operation names do not collide, the registered
    type is the entity's own, no write replaces another, and the fields of
    the root query are the concatenation of these contributions in graph
    order. *)
Theorem buildQuery_fields (g : Graph.t) :
  (forall queries entity,
      In entity (Graph.entities g) ->
      (EntityConfig.queryable (Entity.config entity) = true ->
       ordinaryKey (Entity.gqlName entity) = true) ->
      exists registered,
        In registered (Graph.entities g)
        /\ Entity.gqlName registered = Entity.gqlName entity
        /\ queryLoopBody (afterBuildTypes g) queries entity
           = Normal
               (if EntityConfig.queryable (Entity.config entity)
                then
                  Map_set
                    (Map_set queries (Entity.gqlName entity ++ "_by_id")%string
                       (GraphQLFieldConfig.mk
                          (Some (ObjectType (entityType registered)))
                          (Some [("id", GraphQLID)])))
                    (Entity.gqlName entity)
                    (GraphQLFieldConfig.mk
                       (Some (GraphQLList (ObjectType (entityType registered))))
                       (Some [("limit", GraphQLNonNull GraphQLInt);
                              ("offset", GraphQLInt)]))
                else queries))
  /\ (NoDup (map Entity.gqlName (Graph.entities g)) ->
      NoDup (operationNames g) ->
      (forall entity,
         In entity (Graph.entities g) ->
         EntityConfig.queryable (Entity.config entity) = true ->
         ordinaryKey (Entity.gqlName entity) = true) ->
      forceFields (afterBuildTypes g)
        (GraphQLObjectType.fields (buildQuery (afterBuildTypes g)))
      = Normal
          (flat_map
             (fun entity =>
                if EntityConfig.queryable (Entity.config entity)
                then
                  [ ((Entity.gqlName entity ++ "_by_id")%string,
                     GraphQLFieldConfig.mk
                       (Some (ObjectType (entityType entity)))
                       (Some [("id", GraphQLID)]));
                    (Entity.gqlName entity,
                     GraphQLFieldConfig.mk
                       (Some (GraphQLList (ObjectType (entityType entity))))
                       (Some [("limit", GraphQLNonNull GraphQLInt);
                              ("offset", GraphQLInt)])) ]
                else [])
             (Graph.entities g))).
Proof.
  split.
  - intros queries entity Hin Hordinary.
    destruct (registry_lookup g entity Hin) as [registered [Hget [Hreg Hname]]].
    exists registered. split; [exact Hreg|]. split; [exact Hname|].
    unfold queryLoopBody.
    destruct (EntityConfig.queryable (Entity.config entity)); cbn [negb];
      [|reflexivity].
    rewrite Hget.
    cbn [option_map new_GraphQLList new_GraphQLNonNull isNonNullType bind].
    rewrite (Object_set_ordinary queries) by apply by_id_ordinary.
    now rewrite Object_set_ordinary by now apply Hordinary.
  - intros Hnames Hops Hordinary.
    cbn [buildQuery GraphQLObjectType.fields forceFields].
    rewrite afterBuildTypes_graph.
    rewrite forOf_queryLoopBody.
    + reflexivity.
    + intros entity Hin. now apply registry_lookup_NoDup.
    + exact Hordinary.
    + exact Hops.
Qed.

Lemma sampleGraph_ordinaryKeys (entity : Entity.t) :
  In entity (Graph.entities sampleGraph) ->
  EntityConfig.queryable (Entity.config entity) = true ->
  ordinaryKey (Entity.gqlName entity) = true.
Proof.
  intros Hin _. cbn in Hin. destruct Hin as [<-|[<-|[]]]; reflexivity.
Qed.

Lemma sampleGraph_operationNames : NoDup (operationNames sampleGraph).
Proof.
  repeat (constructor; [cbn; intuition discriminate|]). constructor.
Qed.

Lemma buildQuery_fields_witness :
  forceFields (afterBuildTypes sampleGraph) QueryFields
  = Normal
      [ ("Account_by_id",
         GraphQLFieldConfig.mk (Some (ObjectType (entityType accountEntity)))
           (Some [("id", GraphQLID)]));
        ("Account",
         GraphQLFieldConfig.mk (Some (GraphQLList (ObjectType (entityType accountEntity))))
           (Some [("limit", GraphQLNonNull GraphQLInt); ("offset", GraphQLInt)])) ].
Proof.
  exact (proj2 (buildQuery_fields sampleGraph)
           sampleGraph_gqlNames sampleGraph_operationNames sampleGraph_ordinaryKeys).
Defined.

(** ** The closures of the object types *)

Lemma buildSchema_closures_run_after_buildTypes (g : Graph.t) :
  buildSchema (SchemaBuilder.new g)
  = new_GraphQLSchema (afterBuildTypes g)
      (Map_values (SchemaBuilder.graphQLTypes (afterBuildTypes g)))
      (buildQuery (afterBuildTypes g)).
Proof. reflexivity. Qed.

Lemma registry_values (g : Graph.t) :
  NoDup (map Entity.gqlName (Graph.entities g)) ->
  Map_values (SchemaBuilder.graphQLTypes (afterBuildTypes g))
  = map entityType (Graph.entities g).
Proof.
  intros Hnd. rewrite afterBuildTypes_registry.
  rewrite Map_new_NoDup by (rewrite map_map; exact Hnd).
  unfold Map_values. now rewrite map_map.
Qed.

Lemma buildField_supported (g : Graph.t) (entity : Entity.t) (field : Field.t) :
  supportedField field = true ->
  exists t, buildField (afterBuildTypes g) entity field
            = Normal (GraphQLFieldConfig.mk (Some t) None).
Proof.
  intros Hsupported.
  destruct (resolveFieldType_supported g field Hsupported) as [base [Hbase Hnull]].
  eexists. now apply (buildField_wrap _ _ _ base).
Qed.

(** The field map of an entity's object type, when the closure runs after
    [#buildTypes]. *)
Lemma forceFields_entity (g : Graph.t) (entity : Entity.t) :
  (forall f, In f (Entity.fields entity) -> supportedField f = true) ->
  exists fields,
    forceFields (afterBuildTypes g) (EntityFields entity) = Normal fields
    /\ (NoDup (map Field.gqlName (Entity.fields entity)) ->
        forall f config,
          In f (Entity.fields entity) ->
          buildField (afterBuildTypes g) entity f = Normal config ->
          Map_get fields (Field.gqlName f) = Some config).
Proof.
  intros Hsupported. cbn [forceFields].
  set (entryOf := fun field : Field.t =>
                    config <- buildField (afterBuildTypes g) entity field ;;
                    Normal (Field.gqlName field, config)).
  destruct (mapM_Normal entryOf (Entity.fields entity)) as [entries [Hmap Hrel]].
  { intros f Hin. destruct (buildField_supported g entity f (Hsupported f Hin)) as [t Ht].
    unfold entryOf. rewrite Ht. cbn [bind]. eauto. }
  rewrite Hmap. cbn [bind]. eexists. split; [reflexivity|].
  intros Hnd f config Hin Hconfig.
  assert (Hkeys : map fst entries = map Field.gqlName (Entity.fields entity)).
  { clear - Hrel. induction Hrel as [|f b l bs Hfb _ IH]; [reflexivity|].
    cbn [map]. rewrite IH. f_equal. unfold entryOf in Hfb.
    destruct (buildField (afterBuildTypes g) entity f); cbn [bind] in Hfb;
      [|discriminate].
    inversion Hfb. reflexivity. }
  unfold Object_fromEntries. rewrite Map_new_NoDup by now rewrite Hkeys.
  apply Map_get_In; [now rewrite Hkeys|].
  destruct (Forall2_In_left _ _ _ _ Hrel Hin) as [b [Hb Hfb]].
  unfold entryOf in Hfb. rewrite Hconfig in Hfb. cbn [bind] in Hfb.
  inversion Hfb. subst b. exact Hb.
Qed.

Lemma sampleGraph_supported (entity : Entity.t) (field : Field.t) :
  In entity [accountEntity; contactEntity] -> In field (Entity.fields entity) ->
  supportedField field = true.
Proof.
  intros Hentity Hfield. cbn [In] in Hentity.
  destruct Hentity as [<-|[<-|[]]]; cbn [In accountEntity contactEntity Entity.fields] in Hfield;
    repeat (destruct Hfield as [<-|Hfield]; [reflexivity|]); contradiction.
Qed.

(** Why the closures must wait: called on the builder as the constructor
    leaves it, before [#buildTypes], the closure of [Contact] finds no
    object type for [Account], and the field's [type] is [undefined]. *)
Lemma forceFields_before_buildTypes :
  forceFields (SchemaBuilder.new sampleGraph) (EntityFields contactEntity)
  = Normal [ ("id", GraphQLFieldConfig.mk (Some GraphQLID) None);
             ("account", GraphQLFieldConfig.mk None None);
             ("owner", GraphQLFieldConfig.mk (Some (GraphQLNonNull GraphQLID)) None) ].
Proof. reflexivity. Qed.

(** ** The tags of the two modules *)

(** The labels of [#buildField]'s [switch] are raw source tags; the values
    of [FieldType], which [createField] stores in a field, are spelled
    differently, and none of them is a label. *)
Lemma FieldType_value_not_a_label (kind : FieldType) :
  isScalarCase (FieldType_value kind) = false
  /\ String.eqb (FieldType_value kind) "reference" = false.
Proof. destruct kind; split; reflexivity. Qed.

(** Hence no field made by [createField] gets a type from [#buildField]. *)
Lemma createField_not_supported (camelCase : option string -> Completion string)
    (sObjectField : SObjectField.t) (field : Field.t) :
  createField camelCase sObjectField = Normal (Some field) ->
  supportedField field = false
  /\ forall this, resolveFieldType this field = Normal None.
Proof.
  unfold createField, supportedField, resolveFieldType.
  destruct (String.eqb (SObjectField.type sObjectField) "reference").
  - destruct (falsy (SObjectField.relationshipName sObjectField)); [discriminate|].
    destruct (camelCase (SObjectField.relationshipName sObjectField)); cbn [bind];
      [|discriminate].
    destruct (SObjectField.polymorphicForeignKey sObjectField);
      intros Heq; inversion Heq; split; reflexivity.
  - destruct (camelCase (SObjectField.name sObjectField)); cbn [bind]; [|discriminate].
    intros Heq. inversion Heq. cbn [Field.type]. unfold scalarTypeMapping.
    destruct (Map_get SOBJECT_FIELD_SCALAR_TYPE_MAPPING (SObjectField.type sObjectField))
      as [kind|].
    + destruct (FieldType_value_not_a_label kind) as [Hscalar Href].
      rewrite Hscalar, Href. split; reflexivity.
    + destruct (existsb _ Object_prototype); split; reflexivity.
Qed.

(** * Further properties *)

(** ** What [createField] and [createEntity] return *)

Lemma mapM_inv {A B : Type} (f : A -> Completion B) (l : list A) (bs : list B) :
  mapM f l = Normal bs -> Forall2 (fun a b => f a = Normal b) l bs.
Proof.
  revert bs. induction l as [|a l IH]; intros bs; cbn [mapM].
  - intros Heq. inversion Heq. constructor.
  - destruct (f a) as [b|m] eqn:Hb; cbn [bind]; [|discriminate].
    destruct (mapM f l) as [bs'|m]; cbn [bind]; [|discriminate].
    intros Heq. inversion Heq. constructor; [exact Hb|now apply IH].
Qed.

Lemma mapM_Normal_iff {A B : Type} (f : A -> Completion B) (l : list A) :
  (exists bs, mapM f l = Normal bs) <-> (forall a, In a l -> exists b, f a = Normal b).
Proof.
  split.
  - intros [bs Hbs] a Hin. apply mapM_inv in Hbs.
    destruct (Forall2_In_left _ _ _ _ Hbs Hin) as [b [_ Hb]]. now exists b.
  - intros Hall. destruct (mapM_Normal f l Hall) as [bs [Hbs _]]. now exists bs.
Qed.

(** X1. [createField] returns [undefined] for exactly one kind of record: a
    reference whose relationship name is [null], missing or empty. It does
    so whatever [camelCase] is, which it does not call for such a record. *)
Theorem createField_dropped_iff (camelCase : option string -> Completion string)
    (sObjectField : SObjectField.t) :
  createField camelCase sObjectField = Normal None
  <-> SObjectField.type sObjectField = "reference"
      /\ falsy (SObjectField.relationshipName sObjectField) = true.
Proof.
  unfold createField.
  destruct (String.eqb_spec (SObjectField.type sObjectField) "reference") as [Heq|Hne].
  - destruct (falsy (SObjectField.relationshipName sObjectField)).
    + tauto.
    + split; [|intros [_ H]; discriminate].
      destruct (camelCase (SObjectField.relationshipName sObjectField)); cbn [bind];
        [|discriminate].
      destruct (SObjectField.polymorphicForeignKey sObjectField); discriminate.
  - split; [|intros [H _]; contradiction].
    destruct (camelCase (SObjectField.name sObjectField)); cbn [bind]; discriminate.
Qed.

Lemma createField_cases (camelCase : option string -> Completion string)
    (sObjectField : SObjectField.t) (made : option Field.t) :
  createField camelCase sObjectField = Normal made ->
  (keptRecord sObjectField = false /\ made = None)
  \/ (keptRecord sObjectField = true
      /\ exists field,
           made = Some field
           /\ Field.sfdcName field = SObjectField.name sObjectField
           /\ Field.config field = configOf sObjectField
           /\ camelCase (camelCaseArgument sObjectField) = Normal (Field.gqlName field)).
Proof.
  unfold createField, keptRecord, camelCaseArgument.
  destruct (String.eqb (SObjectField.type sObjectField) "reference"); cbn [andb negb].
  - destruct (falsy (SObjectField.relationshipName sObjectField)); cbn [negb].
    + intros Heq. inversion Heq. now left.
    + destruct (camelCase (SObjectField.relationshipName sObjectField)) as [gqlName|m];
        cbn [bind]; [|discriminate].
      destruct (SObjectField.polymorphicForeignKey sObjectField);
        intros Heq; inversion Heq; right; (split; [reflexivity|]);
        eexists; repeat split.
  - destruct (camelCase (SObjectField.name sObjectField)) as [gqlName|m];
      cbn [bind]; [|discriminate].
    intros Heq. inversion Heq. right. split; [reflexivity|].
    eexists. repeat split.
Qed.

Lemma createField_returns_iff (camelCase : option string -> Completion string)
    (sObjectField : SObjectField.t) :
  (exists made, createField camelCase sObjectField = Normal made)
  <-> (keptRecord sObjectField = true ->
       exists gqlName, camelCase (camelCaseArgument sObjectField) = Normal gqlName).
Proof.
  split.
  - intros [made Hmade] Hkept.
    destruct (createField_cases _ _ _ Hmade) as [[Hdrop _]|[_ [field [_ [_ [_ Hname]]]]]].
    + congruence.
    + eauto.
  - unfold createField, keptRecord, camelCaseArgument.
    destruct (String.eqb (SObjectField.type sObjectField) "reference"); cbn [andb negb].
    + destruct (falsy (SObjectField.relationshipName sObjectField)); cbn [negb].
      * eauto.
      * intros H. destruct (H eq_refl) as [gqlName ->]. cbn [bind].
        destruct (SObjectField.polymorphicForeignKey sObjectField); eauto.
    + intros H. destruct (H eq_refl) as [gqlName ->]. cbn [bind]. eauto.
Qed.

Lemma createChildRelationShip_returns_iff (camelCase : option string -> Completion string)
    (relationship : SObjectChildRelationship.t) :
  (exists made, createChildRelationShip camelCase relationship = Normal made)
  <-> (forall name,
         SObjectChildRelationship.relationshipName relationship = Some name ->
         exists gqlName, camelCase (Some name) = Normal gqlName).
Proof.
  unfold createChildRelationShip.
  destruct (SObjectChildRelationship.relationshipName relationship) as [name|].
  - split.
    + intros [made Hmade] name' Heq. inversion Heq. subst name'.
      destruct (camelCase (Some name)) as [gqlName|m]; [eauto|discriminate].
    + intros H. destruct (H name eq_refl) as [gqlName ->]. cbn [bind]. eauto.
  - split; [intros _ name Heq; discriminate|eauto].
Qed.

(** X2. [createEntity] throws in one case only: [camelCase] throws on a name
    it is given. Those names are the relationship name of every reference
    record that has one, the name of every other field record, and the
    relationship name of every child relationship that has one. A record
    that is left out never makes [createEntity] fail. *)
Theorem createEntity_returns_iff (camelCase : option string -> Completion string)
    (sObject : DescribeSObjectResult.t) :
  (exists entity, createEntity camelCase sObject = Normal entity)
  <-> (forall sObjectField,
         In sObjectField (DescribeSObjectResult.fields sObject) ->
         keptRecord sObjectField = true ->
         exists gqlName, camelCase (camelCaseArgument sObjectField) = Normal gqlName)
      /\ (forall relationship name,
            In relationship (DescribeSObjectResult.childRelationships sObject) ->
            SObjectChildRelationship.relationshipName relationship = Some name ->
            exists gqlName, camelCase (Some name) = Normal gqlName).
Proof.
  unfold createEntity. split.
  - intros [entity Hentity].
    destruct (mapM (createField camelCase) (DescribeSObjectResult.fields sObject))
      as [fields|m] eqn:Hfields; cbn [bind] in Hentity; [|discriminate].
    destruct (mapM (createChildRelationShip camelCase)
                (DescribeSObjectResult.childRelationships sObject))
      as [children|m] eqn:Hchildren; cbn [bind] in Hentity; [|discriminate].
    split.
    + intros r Hin. apply createField_returns_iff.
      apply (proj1 (mapM_Normal_iff (createField camelCase)
                      (DescribeSObjectResult.fields sObject))); eauto.
    + intros c name Hin. apply createChildRelationShip_returns_iff.
      apply (proj1 (mapM_Normal_iff (createChildRelationShip camelCase)
                      (DescribeSObjectResult.childRelationships sObject))); eauto.
  - intros [Hfields Hchildren].
    destruct (proj2 (mapM_Normal_iff (createField camelCase)
                       (DescribeSObjectResult.fields sObject))) as [fields ->].
    { intros r Hin. apply createField_returns_iff. now apply Hfields. }
    destruct (proj2 (mapM_Normal_iff (createChildRelationShip camelCase)
                       (DescribeSObjectResult.childRelationships sObject)))
      as [children ->].
    { intros c Hin. apply createChildRelationShip_returns_iff.
      intros name. now apply Hchildren. }
    cbn [bind]. eauto.
Qed.

Lemma createField_kept_fields (camelCase : option string -> Completion string)
    (records : list SObjectField.t) (made : list (option Field.t)) :
  Forall2 (fun r o => createField camelCase r = Normal o) records made ->
  map Field.sfdcName (filterDefined made)
  = map SObjectField.name (filter keptRecord records)
  /\ map Field.config (filterDefined made) = map configOf (filter keptRecord records)
  /\ map (fun field => Normal (Field.gqlName field)) (filterDefined made)
     = map (fun r => camelCase (camelCaseArgument r)) (filter keptRecord records).
Proof.
  induction 1 as [|r o records made Hr _ IH]; [repeat split|].
  destruct IH as [IHname [IHconfig IHgql]].
  destruct (createField_cases _ _ _ Hr)
    as [[Hdrop ->]|[Hkept [field [-> [Hname [Hconfig Hgql]]]]]];
    cbn [filter filterDefined]; [rewrite Hdrop|rewrite Hkept]; [auto|].
  cbn [map]. rewrite IHname, IHconfig, IHgql, Hname, Hconfig, Hgql. auto.
Qed.

(** X3. When [createEntity] returns, the entity's source name and display
    name are both the raw record's name, its capability flags are the
    record's, and its fields are made of the field records that are kept
    (every record but a reference without relationship name), one field per
    record and in the record's order: each field has its record's name as
    source name, its record's seven flags as configuration, and as display
    name what [camelCase] returns for the relationship name (a reference) or
    the name (any other record). *)
Theorem createEntity_result (camelCase : option string -> Completion string)
    (sObject : DescribeSObjectResult.t) (entity : Entity.t) :
  createEntity camelCase sObject = Normal entity ->
  Entity.sfdcName entity = DescribeSObjectResult.name sObject
  /\ Entity.gqlName entity = DescribeSObjectResult.name sObject
  /\ Entity.config entity
     = EntityConfig.mk (DescribeSObjectResult.createable sObject)
         (DescribeSObjectResult.updateable sObject)
         (DescribeSObjectResult.deletable sObject)
         (DescribeSObjectResult.queryable sObject)
  /\ map Field.sfdcName (Entity.fields entity)
     = map SObjectField.name (filter keptRecord (DescribeSObjectResult.fields sObject))
  /\ map Field.config (Entity.fields entity)
     = map configOf (filter keptRecord (DescribeSObjectResult.fields sObject))
  /\ map (fun field => Normal (Field.gqlName field)) (Entity.fields entity)
     = map (fun r => camelCase (camelCaseArgument r))
           (filter keptRecord (DescribeSObjectResult.fields sObject))
  /\ length (Entity.fields entity) <= length (DescribeSObjectResult.fields sObject).
Proof.
  unfold createEntity.
  destruct (mapM (createField camelCase) (DescribeSObjectResult.fields sObject))
    as [fields|m] eqn:Hfields; cbn [bind]; [|discriminate].
  destruct (mapM (createChildRelationShip camelCase)
              (DescribeSObjectResult.childRelationships sObject))
    as [children|m]; cbn [bind]; [|discriminate].
  intros Heq. inversion Heq. cbn [Entity.sfdcName Entity.gqlName Entity.config Entity.fields].
  apply mapM_inv in Hfields.
  destruct (createField_kept_fields _ _ _ Hfields) as [Hname [Hconfig Hgql]].
  repeat split; try assumption.
  rewrite <- (length_map Field.sfdcName), Hname, length_map.
  apply filter_length_le.
Qed.

Lemma createEntity_result_witness :
  exists entity,
    createEntity sampleCamelCase sampleSObject = Normal entity
    /\ Entity.gqlName entity = "Contact"
    /\ map Field.sfdcName (Entity.fields entity) = [Some "Id"; None; Some "LastName"]
    /\ map (fun field => Normal (Field.gqlName field)) (Entity.fields entity)
       = [Normal "id"; Normal "account"; Normal "lastName"].
Proof.
  eexists. split; [reflexivity|].
  pose proof (createEntity_result sampleCamelCase sampleSObject _ eq_refl)
    as [_ [Hgql [_ [Hnames [_ [Hgqls _]]]]]].
  split; [exact Hgql|]. split; [exact Hnames|exact Hgqls].
Defined.

Lemma createChildRelationShip_kept (camelCase : option string -> Completion string)
    (relationships : list SObjectChildRelationship.t)
    (made : list (option ChildRelationship.t)) :
  Forall2 (fun r o => createChildRelationShip camelCase r = Normal o) relationships made ->
  map (fun child => (ChildRelationship.sfdcName child, ChildRelationship.entity child))
      (filterDefined made)
  = flat_map (fun r =>
                match SObjectChildRelationship.relationshipName r with
                | Some name => [(name, SObjectChildRelationship.childSObject r)]
                | None => []
                end) relationships
  /\ map (fun child => Normal (ChildRelationship.gqlName child)) (filterDefined made)
     = flat_map (fun r =>
                   match SObjectChildRelationship.relationshipName r with
                   | Some name => [camelCase (Some name)]
                   | None => []
                   end) relationships.
Proof.
  induction 1 as [|r o relationships made Hr _ [IH1 IH2]]; [split; reflexivity|].
  cbn [flat_map]. unfold createChildRelationShip in Hr.
  destruct (SObjectChildRelationship.relationshipName r) as [name|].
  - destruct (camelCase (Some name)) as [gqlName|m]; cbn [bind] in Hr; [|discriminate].
    inversion Hr. cbn [filterDefined map app ChildRelationship.sfdcName
                       ChildRelationship.entity ChildRelationship.gqlName].
    now rewrite IH1, IH2.
  - inversion Hr. cbn [filterDefined app]. auto.
Qed.

(** X4. When [createEntity] returns, the entity's child relationships are
    made of the raw relationships whose relationship name is not [null], in
    their order: each has the relationship name as source name, the record's
    [childSObject] as entity, and what [camelCase] returns for the
    relationship name as display name. Only [null] is left out: a
    relationship whose name is the empty string is kept, where a reference
    field with an empty relationship name is not. *)
Theorem createEntity_childRelationships (camelCase : option string -> Completion string)
    (sObject : DescribeSObjectResult.t) (entity : Entity.t) :
  createEntity camelCase sObject = Normal entity ->
  map (fun child => (ChildRelationship.sfdcName child, ChildRelationship.entity child))
      (Entity.childRelationships entity)
  = flat_map (fun r =>
                match SObjectChildRelationship.relationshipName r with
                | Some name => [(name, SObjectChildRelationship.childSObject r)]
                | None => []
                end) (DescribeSObjectResult.childRelationships sObject)
  /\ map (fun child => Normal (ChildRelationship.gqlName child))
         (Entity.childRelationships entity)
     = flat_map (fun r =>
                   match SObjectChildRelationship.relationshipName r with
                   | Some name => [camelCase (Some name)]
                   | None => []
                   end) (DescribeSObjectResult.childRelationships sObject).
Proof.
  unfold createEntity.
  destruct (mapM (createField camelCase) (DescribeSObjectResult.fields sObject))
    as [fields|m]; cbn [bind]; [|discriminate].
  destruct (mapM (createChildRelationShip camelCase)
              (DescribeSObjectResult.childRelationships sObject))
    as [children|m] eqn:Hchildren; cbn [bind]; [|discriminate].
  intros Heq. inversion Heq. cbn [Entity.childRelationships].
  apply mapM_inv in Hchildren. now apply createChildRelationShip_kept.
Qed.

Lemma createEntity_childRelationships_witness :
  exists entity,
    createEntity sampleCamelCase emptyNamesSObject = Normal entity
    /\ Entity.fields entity = []
    /\ map (fun child => (ChildRelationship.sfdcName child, ChildRelationship.entity child))
           (Entity.childRelationships entity)
       = [("Cases", "Case"); ("", "Attachment")].
Proof.
  eexists. split; [reflexivity|]. split; [reflexivity|].
  exact (proj1 (createEntity_childRelationships sampleCamelCase emptyNamesSObject
                  _ eq_refl)).
Defined.

(** ** The type guards and the assertions on the fields [createField] makes *)

Lemma scalar_mapping_values (tag : string) (kind : FieldType) :
  Map_get SOBJECT_FIELD_SCALAR_TYPE_MAPPING tag = Some kind ->
  String.eqb (FieldType_value kind) (FieldType_value REFERENCE) = false
  /\ String.eqb (FieldType_value kind) (FieldType_value POLYMORPHIC_REFERENCE) = false.
Proof.
  intros Hget. apply Map_get_Some_In in Hget.
  unfold SOBJECT_FIELD_SCALAR_TYPE_MAPPING in Hget. cbn [In] in Hget.
  repeat (destruct Hget as [Heq|Hget]; [inversion Heq; split; reflexivity|]).
  contradiction.
Qed.

Lemma createField_guards (camelCase : option string -> Completion string)
    (sObjectField : SObjectField.t) (field : Field.t) :
  createField camelCase sObjectField = Normal (Some field) ->
  isScalarField field = negb (String.eqb (SObjectField.type sObjectField) "reference")
  /\ isReferenceField field
     = String.eqb (SObjectField.type sObjectField) "reference"
       && negb (SObjectField.polymorphicForeignKey sObjectField)
  /\ isPolymorphicReference field
     = String.eqb (SObjectField.type sObjectField) "reference"
       && SObjectField.polymorphicForeignKey sObjectField
  /\ (String.eqb (SObjectField.type sObjectField) "reference" = true ->
      Field.type field
      = TagString (if SObjectField.polymorphicForeignKey sObjectField
                   then "PolymorphicReference" else "Reference")).
Proof.
  unfold createField.
  destruct (String.eqb (SObjectField.type sObjectField) "reference"); cbn [negb andb].
  - destruct (falsy (SObjectField.relationshipName sObjectField)); [discriminate|].
    destruct (camelCase (SObjectField.relationshipName sObjectField)); cbn [bind];
      [|discriminate].
    destruct (SObjectField.polymorphicForeignKey sObjectField);
      intros Heq; inversion Heq; repeat split.
  - destruct (camelCase (SObjectField.name sObjectField)); cbn [bind]; [|discriminate].
    intros Heq. inversion Heq.
    unfold isScalarField, isReferenceField, isPolymorphicReference.
    cbn [Field.type]. unfold scalarTypeMapping.
    destruct (Map_get SOBJECT_FIELD_SCALAR_TYPE_MAPPING (SObjectField.type sObjectField))
      as [kind|] eqn:Hkind.
    + destruct (scalar_mapping_values _ _ Hkind) as [Href Hpoly].
      rewrite Href, Hpoly. repeat split. discriminate.
    + destruct (existsb _ Object_prototype); repeat split; discriminate.
Qed.

(** X5. The three type guards sort the fields [createField] makes by the
    raw record alone: [isScalarField] holds exactly for a record whose tag
    is not ['reference'] (also when the tag is unknown and the field's kind
    is [undefined]), [isReferenceField] exactly for a reference record
    without the polymorphic marker, [isPolymorphicReference] exactly for one
    with it; so exactly one of the three holds. *)
Theorem createField_type_guards (camelCase : option string -> Completion string)
    (sObjectField : SObjectField.t) (field : Field.t) :
  createField camelCase sObjectField = Normal (Some field) ->
  isScalarField field = negb (String.eqb (SObjectField.type sObjectField) "reference")
  /\ isReferenceField field
     = String.eqb (SObjectField.type sObjectField) "reference"
       && negb (SObjectField.polymorphicForeignKey sObjectField)
  /\ isPolymorphicReference field
     = String.eqb (SObjectField.type sObjectField) "reference"
       && SObjectField.polymorphicForeignKey sObjectField
  /\ (isScalarField field = true /\ isReferenceField field = false
        /\ isPolymorphicReference field = false
      \/ isScalarField field = false /\ isReferenceField field = true
           /\ isPolymorphicReference field = false
      \/ isScalarField field = false /\ isReferenceField field = false
           /\ isPolymorphicReference field = true).
Proof.
  intros Hmade.
  destruct (createField_guards _ _ _ Hmade) as [Hscalar [Href [Hpoly _]]].
  repeat (split; [assumption|]).
  rewrite Hscalar, Href, Hpoly.
  destruct (String.eqb (SObjectField.type sObjectField) "reference");
    destruct (SObjectField.polymorphicForeignKey sObjectField); cbn; tauto.
Qed.

Lemma createField_type_guards_witness :
  isScalarField (Field.mk TagUndefined (Some "Secret__c") "secret__c"
                   (plainConfig true) None None None None) = true
  /\ isPolymorphicReference ownerField = true.
Proof.
  split.
  - exact (proj1 (createField_type_guards sampleCamelCase encryptedRecord _ eq_refl)).
  - exact (proj1 (proj2 (proj2 (createField_type_guards sampleCamelCase ownerRecord
                                  ownerField eq_refl)))).
Defined.

(** X6. On a field [createField] makes, [assertScalarField] returns for a
    record whose tag is not ['reference'] and throws for a reference record,
    with a message that ends in the field's kind, [Reference] or
    [PolymorphicReference]; [assertReferenceField] returns exactly for a
    reference record without the polymorphic marker. *)
Theorem createField_assertions (camelCase : option string -> Completion string)
    (inheritedToString : string -> string)
    (sObjectField : SObjectField.t) (field : Field.t) :
  createField camelCase sObjectField = Normal (Some field) ->
  assertScalarField inheritedToString field
  = (if String.eqb (SObjectField.type sObjectField) "reference"
     then Throw (if SObjectField.polymorphicForeignKey sObjectField
                 then "Expected a scalar field but received a PolymorphicReference."
                 else "Expected a scalar field but received a Reference.")
     else Normal tt)
  /\ (assertReferenceField inheritedToString field = Normal tt
      <-> SObjectField.type sObjectField = "reference"
          /\ SObjectField.polymorphicForeignKey sObjectField = false)
  /\ (SObjectField.type sObjectField = "reference" ->
      SObjectField.polymorphicForeignKey sObjectField = true ->
      assertReferenceField inheritedToString field
      = Throw "Expected a reference field but received a PolymorphicReference.").
Proof.
  intros Hmade.
  destruct (createField_guards _ _ _ Hmade) as [Hscalar [Href [Hpoly Htype]]].
  unfold assertScalarField, assertReferenceField. rewrite Hscalar, Href.
  destruct (String.eqb_spec (SObjectField.type sObjectField) "reference") as [Heq|Hne];
    cbn [negb andb].
  - rewrite (Htype eq_refl).
    destruct (SObjectField.polymorphicForeignKey sObjectField); cbn [negb templateOfType].
    + split; [reflexivity|]. split; [|reflexivity].
      split; [discriminate|intros [_ H]; discriminate].
    + split; [reflexivity|]. split; [tauto|discriminate].
  - split; [reflexivity|]. split; [|contradiction].
    split; [discriminate|tauto].
Qed.

Lemma createField_assertions_witness :
  assertScalarField (fun property => property) ownerField
  = Throw "Expected a scalar field but received a PolymorphicReference."
  /\ assertReferenceField (fun property => property) ownerField
     = Throw "Expected a reference field but received a PolymorphicReference.".
Proof.
  split.
  - exact (proj1 (createField_assertions sampleCamelCase (fun property => property)
                    ownerRecord ownerField eq_refl)).
  - exact (proj2 (proj2 (createField_assertions sampleCamelCase (fun property => property)
                           ownerRecord ownerField eq_refl)) eq_refl eq_refl).
Defined.

(** ** When [#buildField] and [buildSchema] throw *)

Lemma buildField_unresolved (this : SchemaBuilder.t) (entity : Entity.t) (field : Field.t) :
  resolveFieldType this field = Normal None ->
  buildField this entity field
  = if FieldConfig.nillable (Field.config field)
    then Normal (GraphQLFieldConfig.mk None None)
    else Throw "Expected undefined to be a GraphQL nullable type.".
Proof.
  intros Hbase. unfold buildField. rewrite Hbase. cbn [bind].
  now destruct (FieldConfig.nillable (Field.config field)).
Qed.

Lemma resolveFieldType_unhandled (this : SchemaBuilder.t) (field : Field.t) :
  handledTag field = false -> resolveFieldType this field = Normal None.
Proof.
  unfold handledTag, resolveFieldType.
  destruct (Field.type field) as [|tag|]; try reflexivity.
  destruct (isScalarCase tag); cbn [orb]; [discriminate|].
  now intros ->.
Qed.

(** X7. Run after [#buildTypes], [#buildField] throws in exactly two cases:
    the field's tag is ['reference'] and it has no [referenceTo] list (the
    read of [referenceTo.length] fails), or the field's tag is none of the
    switch's labels and the field is not nillable ([GraphQLNonNull] is given
    [undefined]). A nillable field of an unhandled tag does not throw: it is
    returned without a type. *)
Theorem buildField_throws_iff (g : Graph.t) (entity : Entity.t) (field : Field.t) :
  (exists message, buildField (afterBuildTypes g) entity field = Throw message)
  <-> (Field.type field = TagString "reference" /\ Field.referenceTo field = None)
      \/ (handledTag field = false
          /\ FieldConfig.nillable (Field.config field) = false).
Proof.
  destruct (handledTag field) eqn:Hhandled.
  - destruct (supportedField field) eqn:Hsupported.
    + destruct (buildField_supported g entity field Hsupported) as [t Ht].
      rewrite Ht. split.
      * intros [message H]. discriminate.
      * intros [[Htype Href]|[H _]]; [|discriminate].
        unfold supportedField in Hsupported. rewrite Htype, Href in Hsupported.
        discriminate.
    + assert (Href : Field.type field = TagString "reference"
                     /\ Field.referenceTo field = None).
      { unfold handledTag in Hhandled. unfold supportedField in Hsupported.
        destruct (Field.type field) as [|tag|]; try discriminate.
        destruct (isScalarCase tag); cbn [orb] in *; [discriminate|].
        apply String.eqb_eq in Hhandled. subst tag.
        destruct (Field.referenceTo field); [discriminate|]. now split. }
      split; [intros _; now left|]. intros _.
      unfold buildField, resolveFieldType.
      destruct Href as [-> ->]. rewrite reference_not_scalarCase.
      cbn [String.eqb Ascii.eqb Bool.eqb bind]. eauto.
  - rewrite (buildField_unresolved _ _ _ (resolveFieldType_unhandled _ _ Hhandled)).
    destruct (FieldConfig.nillable (Field.config field)).
    + split; [intros [message H]; discriminate|].
      intros [[Htype _]|[_ H]]; [|discriminate].
      unfold handledTag in Hhandled. rewrite Htype, reference_not_scalarCase in Hhandled.
      discriminate.
    + split; [intros _; right; now split|eauto].
Qed.

Lemma forceFields_entity_returns_iff (this : SchemaBuilder.t) (entity : Entity.t) :
  (exists fields, forceFields this (EntityFields entity) = Normal fields)
  <-> (forall field, In field (Entity.fields entity) ->
         exists config, buildField this entity field = Normal config).
Proof.
  cbn [forceFields].
  set (entryOf := fun field : Field.t =>
                    config <- buildField this entity field ;;
                    Normal (Field.gqlName field, config)).
  assert (Hentry : forall field,
            (exists entry, entryOf field = Normal entry)
            <-> exists config, buildField this entity field = Normal config).
  { intros field. unfold entryOf.
    destruct (buildField this entity field) as [config|m]; cbn [bind].
    - split; eauto.
    - split; intros [x H]; discriminate. }
  split.
  - intros [fields Hfields] field Hin. apply Hentry.
    apply (proj1 (mapM_Normal_iff entryOf (Entity.fields entity))); [|exact Hin].
    destruct (mapM entryOf (Entity.fields entity)) as [entries|m]; [eauto|discriminate].
  - intros Hall.
    destruct (proj2 (mapM_Normal_iff entryOf (Entity.fields entity))) as [entries ->].
    + intros field Hin. apply Hentry. now apply Hall.
    + cbn [bind]. eauto.
Qed.

Lemma getFields_inv (this : SchemaBuilder.t) (o : GraphQLObjectType.t)
    (fields : Dict GraphQLFieldConfig.t) :
  getFields this o = Normal fields ->
  forceFields this (GraphQLObjectType.fields o) = Normal fields.
Proof.
  unfold getFields.
  destruct (forceFields this (GraphQLObjectType.fields o)) as [made|m]; cbn [bind];
    [|discriminate].
  destruct (mapM _ made); cbn [bind]; [|discriminate].
  intros Heq. now inversion Heq.
Qed.

(** What a schema that [new GraphQLSchema] returned holds. *)
Lemma new_GraphQLSchema_inv (this : SchemaBuilder.t) (types : list GraphQLObjectType.t)
    (query : GraphQLObjectType.t) (schema : GraphQLSchema.t) :
  new_GraphQLSchema this types query = Normal schema ->
  GraphQLSchema.types schema = types
  /\ Forall2 (fun o pair =>
                fst pair = o
                /\ forceFields this (GraphQLObjectType.fields o) = Normal (snd pair))
             types (GraphQLSchema.typeFields schema)
  /\ forceFields this (GraphQLObjectType.fields query)
     = Normal (GraphQLSchema.queryFields schema).
Proof.
  unfold new_GraphQLSchema.
  destruct (mapM (fun o => assertName (GraphQLObjectType.name o)) types); cbn [bind];
    [|discriminate].
  destruct (assertName (GraphQLObjectType.name query)); cbn [bind]; [|discriminate].
  destruct (mapM (fun o => fields <- getFields this o ;; Normal (o, fields)) types)
    as [typeFields|m] eqn:HtypeFields; cbn [bind]; [|discriminate].
  destruct (getFields this query) as [queryFields|m] eqn:HqueryFields; cbn [bind];
    [|discriminate].
  destruct (firstDuplicate _ _); [discriminate|].
  intros Heq. inversion Heq. cbn [GraphQLSchema.types GraphQLSchema.typeFields
                                   GraphQLSchema.queryFields].
  split; [reflexivity|]. split; [|now apply getFields_inv].
  apply mapM_inv in HtypeFields.
  eapply Forall2_impl; [|exact HtypeFields].
  intros o pair Hpair. cbn beta in Hpair.
  destruct (getFields this o) as [fields|m] eqn:Hfields; cbn [bind] in Hpair;
    [|discriminate].
  inversion Hpair. cbn [fst snd]. split; [reflexivity|]. now apply getFields_inv.
Qed.

Lemma buildSchema_inv (g : Graph.t) (schema : GraphQLSchema.t) :
  NoDup (map Entity.gqlName (Graph.entities g)) ->
  buildSchema (SchemaBuilder.new g) = Normal schema ->
  GraphQLSchema.types schema = map entityType (Graph.entities g)
  /\ Forall2 (fun o pair =>
                fst pair = o
                /\ forceFields (afterBuildTypes g) (GraphQLObjectType.fields o)
                   = Normal (snd pair))
             (map entityType (Graph.entities g)) (GraphQLSchema.typeFields schema)
  /\ forceFields (afterBuildTypes g) QueryFields
     = Normal (GraphQLSchema.queryFields schema).
Proof.
  intros Hnd. rewrite buildSchema_closures_run_after_buildTypes, (registry_values g Hnd).
  apply new_GraphQLSchema_inv.
Qed.

Lemma buildSchema_field_throws (g : Graph.t) (entity : Entity.t) (field : Field.t)
    (message : string) :
  NoDup (map Entity.gqlName (Graph.entities g)) ->
  In entity (Graph.entities g) ->
  In field (Entity.fields entity) ->
  buildField (afterBuildTypes g) entity field = Throw message ->
  exists message', buildSchema (SchemaBuilder.new g) = Throw message'.
Proof.
  intros Hnd Hentity Hfield Hthrow.
  destruct (buildSchema (SchemaBuilder.new g)) as [schema|message'] eqn:Hschema;
    [exfalso|now exists message'].
  destruct (buildSchema_inv g schema Hnd Hschema) as [_ [Hfields _]].
  destruct (Forall2_In_left _ _ _ _ Hfields (in_map entityType _ entity Hentity))
    as [pair [_ [_ Hpair]]].
  cbn [entityType GraphQLObjectType.fields] in Hpair.
  destruct (proj1 (forceFields_entity_returns_iff (afterBuildTypes g) entity)
              (ex_intro _ _ Hpair) field Hfield) as [config Hconfig].
  congruence.
Qed.

(** X8. For a graph whose entities have distinct display names: a field
    for which [#buildField] throws, in any entity, queryable or not, makes
    [buildSchema] throw. And when [buildSchema] returns, the schema's types
    are the object types of the entities in graph order, each with the
    field map its [fields] closure returns after [#buildTypes], and the
    root query has the fields its own closure returns. *)
Theorem buildSchema_fields_or_throw (g : Graph.t) :
  NoDup (map Entity.gqlName (Graph.entities g)) ->
  (forall entity field message,
      In entity (Graph.entities g) -> In field (Entity.fields entity) ->
      buildField (afterBuildTypes g) entity field = Throw message ->
      exists message', buildSchema (SchemaBuilder.new g) = Throw message')
  /\ (forall schema,
        buildSchema (SchemaBuilder.new g) = Normal schema ->
        GraphQLSchema.types schema = map entityType (Graph.entities g)
        /\ map fst (GraphQLSchema.typeFields schema)
           = map entityType (Graph.entities g)
        /\ Forall (fun pair =>
                     forceFields (afterBuildTypes g)
                       (GraphQLObjectType.fields (fst pair)) = Normal (snd pair))
                  (GraphQLSchema.typeFields schema)
        /\ forceFields (afterBuildTypes g) QueryFields
           = Normal (GraphQLSchema.queryFields schema)).
Proof.
  intros Hnd. split.
  - intros entity field message Hentity Hfield Hthrow.
    now apply (buildSchema_field_throws g entity field message).
  - intros schema Hschema.
    destruct (buildSchema_inv g schema Hnd Hschema) as [Htypes [Hfields Hquery]].
    split; [exact Htypes|]. split; [|split; [|exact Hquery]].
    + clear - Hfields. induction Hfields as [|o pair l l' [Hfst _] _ IH]; [reflexivity|].
      cbn [map]. now rewrite IH, Hfst.
    + clear - Hfields. induction Hfields as [|o pair l l' [Hfst Hpair] _ IH];
        constructor; [now rewrite Hfst|exact IH].
Qed.

Lemma buildSchema_fields_or_throw_witness :
  (exists schema, buildSchema (SchemaBuilder.new sampleGraph) = Normal schema)
  /\ (exists message, buildSchema (SchemaBuilder.new leadGraph) = Throw message)
  /\ (forall schema,
        buildSchema (SchemaBuilder.new sampleGraph) = Normal schema ->
        map fst (GraphQLSchema.typeFields schema)
        = [entityType accountEntity; entityType contactEntity]).
Proof.
  split; [eexists; reflexivity|]. split.
  - apply (proj1 (buildSchema_fields_or_throw leadGraph
                    ltac:(repeat constructor; intros []))
             leadEntity (scalarField "address" "address" false)
             "Expected undefined to be a GraphQL nullable type.");
      [cbn; auto|cbn; auto|reflexivity].
  - intros schema Hschema.
    exact (proj1 (proj2 (proj2 (buildSchema_fields_or_throw sampleGraph
                                  sampleGraph_gqlNames) schema Hschema))).
Defined.

(** ** More on dictionaries: distinct keys, and the last write wins *)

Lemma Map_set_NoDup {V : Type} (m : Dict V) (k : string) (v : V) :
  NoDup (map fst m) -> NoDup (map fst (Map_set m k v)).
Proof.
  induction m as [|[k0 v0] m IH]; cbn [Map_set map fst]; intros Hnd.
  - repeat constructor. intros [].
  - inversion Hnd as [|? ? Hnotin Hnd']; subst.
    destruct (String.eqb_spec k0 k) as [->|Hk]; cbn [map fst].
    + now constructor.
    + constructor; [|now apply IH].
      rewrite Map_set_keys_incl. intros [Heq|Hin]; [congruence|contradiction].
Qed.

Lemma fold_set_NoDup {V : Type} (entries m : Dict V) :
  NoDup (map fst m) ->
  NoDup (map fst (fold_left (fun m entry => Map_set m (fst entry) (snd entry)) entries m)).
Proof.
  revert m. induction entries as [|[k v] entries IH]; intros m Hnd; cbn [fold_left].
  - exact Hnd.
  - apply IH. now apply Map_set_NoDup.
Qed.

Lemma Map_new_keys {V : Type} (entries : Dict V) :
  NoDup (map fst (Map_new entries))
  /\ forall k, In k (map fst (Map_new entries)) <-> In k (map fst entries).
Proof.
  split.
  - apply fold_set_NoDup. constructor.
  - intros k. split.
    + intros Hin. apply in_map_iff in Hin. destruct Hin as [[k' v] [Hk Hin]].
      cbn [fst] in Hk. subst k'. apply fold_set_In in Hin.
      destruct Hin as [Hin|[]]. now apply (in_map fst) in Hin.
    + intros Hin. apply fold_set_keys. now left.
Qed.

Lemma fold_set_get_later {V : Type} (entries m : Dict V) (k : string) :
  ~ In k (map fst entries) ->
  Map_get (fold_left (fun m entry => Map_set m (fst entry) (snd entry)) entries m) k
  = Map_get m k.
Proof.
  revert m. induction entries as [|[k0 v0] entries IH]; intros m Hnotin; cbn [fold_left].
  - reflexivity.
  - cbn [map fst In] in Hnotin. rewrite IH by tauto. cbn [fst snd].
    apply Map_get_set_neq. tauto.
Qed.

Lemma Map_new_last_wins {V : Type} (before after : Dict V) (k : string) (v : V) :
  ~ In k (map fst after) ->
  Map_get (Map_new (before ++ (k, v) :: after)) k = Some v.
Proof.
  intros Hnotin. unfold Map_new. rewrite fold_left_app. cbn [fold_left fst snd].
  rewrite fold_set_get_later by exact Hnotin. apply Map_get_set_eq.
Qed.

(** ** The registry [#buildTypes] returns *)

Lemma buildTypes_registry_keys_aux (g : Graph.t) :
  NoDup (map fst (SchemaBuilder.graphQLTypes (afterBuildTypes g)))
  /\ forall entry,
       In entry (SchemaBuilder.graphQLTypes (afterBuildTypes g)) ->
       GraphQLObjectType.name (snd entry) = fst entry.
Proof.
  rewrite afterBuildTypes_registry. split; [apply Map_new_keys|].
  intros [k o] Hin. unfold Map_new in Hin. apply fold_set_In in Hin.
  destruct Hin as [Hin|[]]. apply in_map_iff in Hin.
  destruct Hin as [entity [Heq Hin]]. inversion Heq. reflexivity.
Qed.

(** X9. Whatever the graph, the map [#buildTypes] returns has distinct keys,
    its keys are exactly the display names of the graph's entities, every
    entry is the object type made for an entity of the graph under that
    entity's display name, and it has at most as many entries as the graph
    has entities (fewer when two entities share a display name). *)
Theorem buildTypes_registry (g : Graph.t) :
  NoDup (map fst (fst (buildTypes (SchemaBuilder.new g))))
  /\ (forall name,
        In name (map fst (fst (buildTypes (SchemaBuilder.new g))))
        <-> In name (map Entity.gqlName (Graph.entities g)))
  /\ Forall (fun entry =>
               GraphQLObjectType.name (snd entry) = fst entry
               /\ exists entity,
                    In entity (Graph.entities g)
                    /\ Entity.gqlName entity = fst entry
                    /\ snd entry = entityType entity)
            (fst (buildTypes (SchemaBuilder.new g)))
  /\ length (Map_values (fst (buildTypes (SchemaBuilder.new g))))
     <= length (Graph.entities g).
Proof.
  change (fst (buildTypes (SchemaBuilder.new g)))
    with (SchemaBuilder.graphQLTypes (afterBuildTypes g)).
  rewrite afterBuildTypes_registry.
  set (entries := map (fun entity => (Entity.gqlName entity, entityType entity))
                      (Graph.entities g)).
  assert (Hkeys : map fst entries = map Entity.gqlName (Graph.entities g))
    by (unfold entries; rewrite map_map; reflexivity).
  destruct (Map_new_keys entries) as [Hnd Hiff].
  split; [exact Hnd|]. split; [intros name; now rewrite Hiff, Hkeys|]. split.
  - apply Forall_forall. intros [k o] Hin. unfold Map_new in Hin.
    apply fold_set_In in Hin. destruct Hin as [Hin|[]].
    unfold entries in Hin. apply in_map_iff in Hin. destruct Hin as [entity [Heq Hin]].
    inversion Heq. subst. cbn [fst snd]. split; [reflexivity|]. now exists entity.
  - unfold Map_values. rewrite length_map, <- (length_map fst).
    rewrite <- (length_map Entity.gqlName). apply NoDup_incl_length; [exact Hnd|].
    intros name Hin. now apply Hiff in Hin; rewrite Hkeys in Hin.
Qed.

(** X10. When several entities share a display name, the last one in graph
    order is the one registered: a lookup of the name gives the object type
    of the last entity, and the object types of the earlier entities of
    that name are not among the registered types (they are silently
    dropped from the schema). *)
Theorem buildTypes_last_wins (g : Graph.t) (before after : list Entity.t)
    (entity : Entity.t) :
  Graph.entities g = before ++ entity :: after ->
  (forall later, In later after -> Entity.gqlName later <> Entity.gqlName entity) ->
  Map_get (SchemaBuilder.graphQLTypes (afterBuildTypes g)) (Entity.gqlName entity)
  = Some (entityType entity)
  /\ (forall earlier,
        In earlier before ->
        Entity.gqlName earlier = Entity.gqlName entity ->
        earlier <> entity ->
        ~ In (entityType earlier)
             (Map_values (SchemaBuilder.graphQLTypes (afterBuildTypes g)))).
Proof.
  intros Hsplit Hlast.
  assert (Hget : Map_get (SchemaBuilder.graphQLTypes (afterBuildTypes g))
                         (Entity.gqlName entity) = Some (entityType entity)).
  { rewrite afterBuildTypes_registry, Hsplit, map_app. cbn [map].
    apply Map_new_last_wins. rewrite map_map. cbn [fst].
    intros Hin. apply in_map_iff in Hin. destruct Hin as [later [Heq Hin]].
    now apply (Hlast later). }
  split; [exact Hget|].
  intros earlier _ Hname Hne Hin.
  destruct (buildTypes_registry_keys_aux g) as [Hnd Hentries].
  unfold Map_values in Hin. apply in_map_iff in Hin.
  destruct Hin as [[k o] [Ho Hin]]. cbn [snd] in Ho. subst o.
  pose proof (Hentries _ Hin) as Hk. cbn [fst snd entityType GraphQLObjectType.name] in Hk.
  rewrite <- Hk, Hname in Hin.
  apply (Map_get_In _ _ _ Hnd) in Hin. rewrite Hget in Hin.
  inversion Hin. congruence.
Qed.

Lemma buildTypes_last_wins_witness :
  Map_get (SchemaBuilder.graphQLTypes (afterBuildTypes shadowedGraph)) "Account"
  = Some (entityType externalAccount)
  /\ ~ In (entityType standardAccount)
          (Map_values (SchemaBuilder.graphQLTypes (afterBuildTypes shadowedGraph))).
Proof.
  destruct (buildTypes_last_wins shadowedGraph [standardAccount; contactEntity] []
              externalAccount eq_refl ltac:(intros later [])) as [Hget Hshadowed].
  split; [exact Hget|].
  apply Hshadowed; [cbn; auto|reflexivity|discriminate].
Defined.

(** ** The names of the root query's fields *)

Lemma insertIndex_keys {V : Type} (o : Dict V) (index : N) (k : string) (v : V)
    (k' : string) :
  In k' (map fst (insertIndex o index k v)) <-> k' = k \/ In k' (map fst o).
Proof.
  induction o as [|[k0 v0] o IH]; cbn [insertIndex map fst In].
  - intuition.
  - destruct (arrayIndex k0) as [i|]; [destruct (N.ltb index i)|];
      cbn [map fst In]; rewrite ?IH; intuition.
Qed.

Lemma insertIndex_NoDup {V : Type} (o : Dict V) (index : N) (k : string) (v : V) :
  NoDup (map fst o) -> ~ In k (map fst o) ->
  NoDup (map fst (insertIndex o index k v)).
Proof.
  induction o as [|[k0 v0] o IH]; cbn [insertIndex map fst In]; intros Hnd Hnotin.
  - repeat constructor. intros [].
  - inversion Hnd as [|? ? Hk0 Hnd']; subst.
    destruct (arrayIndex k0) as [i|]; [destruct (N.ltb index i)|]; cbn [map fst].
    + constructor; [exact Hnotin|exact Hnd].
    + constructor; [|apply IH; tauto].
      rewrite insertIndex_keys. intros [Heq|Hin]; [|contradiction].
      apply Hnotin. left. now symmetry.
    + constructor; [exact Hnotin|exact Hnd].
Qed.

Lemma Object_set_keys {V : Type} (o : Dict V) (k : string) (v : V) (k' : string) :
  In k' (map fst (Object_set o k v))
  <-> (k' = k /\ k <> "__proto__") \/ In k' (map fst o).
Proof.
  unfold Object_set. destruct (String.eqb_spec k "__proto__") as [Heq|Hne].
  - tauto.
  - destruct (arrayIndex k) as [index|];
      [destruct (existsb (String.eqb k) (map fst o))|];
      rewrite ?Map_set_keys_incl, ?insertIndex_keys; tauto.
Qed.

Lemma Object_set_NoDup {V : Type} (o : Dict V) (k : string) (v : V) :
  NoDup (map fst o) -> NoDup (map fst (Object_set o k v)).
Proof.
  intros Hnd. unfold Object_set. destruct (String.eqb k "__proto__"); [exact Hnd|].
  destruct (arrayIndex k) as [index|]; [|now apply Map_set_NoDup].
  destruct (existsb (String.eqb k) (map fst o)) eqn:Hmember;
    [now apply Map_set_NoDup|].
  apply insertIndex_NoDup; [exact Hnd|].
  intros Hin.
  assert (Htrue : existsb (String.eqb k) (map fst o) = true).
  { apply existsb_exists. exists k. split; [exact Hin|apply String.eqb_refl]. }
  congruence.
Qed.

Lemma by_id_not_proto (name : string) : (name ++ "_by_id")%string <> "__proto__".
Proof.
  pose proof (by_id_ordinary name) as H. unfold ordinaryKey in H.
  apply andb_prop in H. destruct H as [H _].
  apply negb_true_iff in H. now apply String.eqb_neq.
Qed.

Lemma forOf_query_keys (this : SchemaBuilder.t) (l : list Entity.t)
    (queries : Dict GraphQLFieldConfig.t) :
  (forall entity, In entity l ->
     exists o, Map_get (SchemaBuilder.graphQLTypes this) (Entity.gqlName entity) = Some o) ->
  NoDup (map fst queries) ->
  exists result,
    forOf l (queryLoopBody this) queries = Normal result
    /\ NoDup (map fst result)
    /\ forall name,
         In name (map fst result)
         <-> In name (map fst queries)
             \/ (In name (flat_map (fun entity =>
                                      if EntityConfig.queryable (Entity.config entity)
                                      then [(Entity.gqlName entity ++ "_by_id")%string;
                                            Entity.gqlName entity]
                                      else []) l)
                 /\ name <> "__proto__").
Proof.
  revert queries. induction l as [|entity l IH]; intros queries Hget Hnd;
    cbn [forOf flat_map].
  - exists queries. split; [reflexivity|]. split; [exact Hnd|]. intros name. cbn [In]. tauto.
  - unfold queryLoopBody at 1.
    destruct (EntityConfig.queryable (Entity.config entity)); cbn [negb bind].
    + destruct (Hget entity (or_introl eq_refl)) as [o Ho]. rewrite Ho.
      cbn [option_map new_GraphQLList new_GraphQLNonNull isNonNullType bind].
      destruct (IH (Object_set
                      (Object_set queries (Entity.gqlName entity ++ "_by_id")%string
                         (GraphQLFieldConfig.mk (Some (ObjectType o))
                            (Some [("id", GraphQLID)])))
                      (Entity.gqlName entity)
                      (GraphQLFieldConfig.mk (Some (GraphQLList (ObjectType o)))
                         (Some [("limit", GraphQLNonNull GraphQLInt);
                                ("offset", GraphQLInt)]))))
        as [result [Hresult [Hnd' Hiff]]].
      * intros e Hin. apply Hget. now right.
      * now apply Object_set_NoDup, Object_set_NoDup.
      * exists result. split; [exact Hresult|]. split; [exact Hnd'|].
        intros name. rewrite Hiff, !Object_set_keys, in_app_iff. cbn [In].
        pose proof (by_id_not_proto (Entity.gqlName entity)) as Hbyid.
        split.
        -- intros [[[Heq Hne]|[[Heq Hne]|Hin]]|Hin]; subst; tauto.
        -- intros [Hin|[[[Heq|[Heq|[]]]|Hin] Hne]]; subst; tauto.
    + cbn [app]. apply IH; [|exact Hnd]. intros e Hin. apply Hget. now right.
Qed.

Lemma operationNames_length (g : Graph.t) :
  length (operationNames g)
  = 2 * length (filter (fun entity => EntityConfig.queryable (Entity.config entity))
                       (Graph.entities g)).
Proof.
  unfold operationNames. induction (Graph.entities g) as [|e l IHl]; [reflexivity|].
  cbn [flat_map filter].
  destruct (EntityConfig.queryable (Entity.config e));
    cbn [app length]; rewrite ?IHl; lia.
Qed.

(** X11. Whatever the graph (display names may collide), the root query's
    closure returns an object whose field names are distinct and are
    exactly the names [<gqlName>_by_id] and [<gqlName>] of the queryable
    entities, the name [__proto__] apart: the assignment to that name sets
    the object's prototype and adds no field. An entity that is not
    queryable adds no name, and the object has at most two fields per
    queryable entity. *)
Theorem buildQuery_field_names (g : Graph.t) :
  exists queries,
    forceFields (afterBuildTypes g) (GraphQLObjectType.fields (buildQuery (afterBuildTypes g)))
    = Normal queries
    /\ NoDup (map fst queries)
    /\ (forall name,
          In name (map fst queries)
          <-> In name (operationNames g) /\ name <> "__proto__")
    /\ length queries
       <= 2 * length (filter (fun entity => EntityConfig.queryable (Entity.config entity))
                             (Graph.entities g)).
Proof.
  cbn [buildQuery GraphQLObjectType.fields forceFields]. rewrite afterBuildTypes_graph.
  destruct (forOf_query_keys (afterBuildTypes g) (Graph.entities g) [])
    as [queries [Hqueries [Hnd Hiff]]].
  - intros entity Hin.
    destruct (registry_lookup g entity Hin) as [registered [Hget _]]. eauto.
  - constructor.
  - exists queries. split; [exact Hqueries|]. split; [exact Hnd|].
    assert (Hnames : forall name,
              In name (map fst queries)
              <-> In name (operationNames g) /\ name <> "__proto__").
    { intros name. rewrite Hiff. cbn [map In]. unfold operationNames. tauto. }
    split; [exact Hnames|].
    rewrite <- (length_map fst).
    rewrite <- operationNames_length. apply NoDup_incl_length; [exact Hnd|].
    intros name Hin. now apply Hnames.
Qed.

(** ** The field map of an entity's object type *)

Lemma entries_keys (this : SchemaBuilder.t) (entity : Entity.t) (l : list Field.t)
    (entries : Dict GraphQLFieldConfig.t) :
  Forall2 (fun field entry =>
             (config <- buildField this entity field ;;
              Normal (Field.gqlName field, config)) = Normal entry) l entries ->
  map fst entries = map Field.gqlName l.
Proof.
  induction 1 as [|field entry l entries Hentry _ IH]; [reflexivity|].
  cbn [map]. rewrite IH. f_equal.
  destruct (buildField this entity field); cbn [bind] in Hentry; [|discriminate].
  inversion Hentry. reflexivity.
Qed.

(** X12. When the [fields] closure of an entity's object type returns, the
    field map has distinct keys, which are exactly the display names of the
    entity's fields; and when several fields share a display name (as a
    reference whose relationship name camel-cases to the name of another
    field), the entry is the configuration [#buildField] made for the last
    of them: the earlier ones are overwritten. *)
Theorem forceFields_last_field_wins (this : SchemaBuilder.t) (entity : Entity.t)
    (before after : list Field.t) (field : Field.t)
    (fields : Dict GraphQLFieldConfig.t) :
  Entity.fields entity = before ++ field :: after ->
  (forall later, In later after -> Field.gqlName later <> Field.gqlName field) ->
  forceFields this (EntityFields entity) = Normal fields ->
  NoDup (map fst fields)
  /\ (forall name,
        In name (map fst fields) <-> In name (map Field.gqlName (Entity.fields entity)))
  /\ exists config,
       buildField this entity field = Normal config
       /\ Map_get fields (Field.gqlName field) = Some config.
Proof.
  intros Hsplit Hlast. cbn [forceFields].
  destruct (mapM (fun field0 => config <- buildField this entity field0 ;;
                                Normal (Field.gqlName field0, config))
                 (Entity.fields entity)) as [entries|m] eqn:Hmap; cbn [bind];
    [|discriminate].
  intros Heq. inversion Heq. subst fields. clear Heq.
  apply mapM_inv in Hmap.
  pose proof (entries_keys _ _ _ _ Hmap) as Hkeys.
  unfold Object_fromEntries.
  destruct (Map_new_keys entries) as [Hnd Hiff].
  split; [exact Hnd|]. split; [intros name; now rewrite Hiff, Hkeys|].
  rewrite Hsplit in Hmap. apply Forall2_app_inv_l in Hmap.
  destruct Hmap as [entriesBefore [entriesRest [_ [Hrest ->]]]].
  inversion Hrest as [|? entry ? entriesAfter Hentry Hafter]; subst.
  destruct (buildField this entity field) as [config|m] eqn:Hconfig;
    cbn [bind] in Hentry; [|discriminate].
  inversion Hentry. subst entry.
  exists config. split; [reflexivity|].
  apply Map_new_last_wins. rewrite (entries_keys _ _ _ _ Hafter).
  intros Hin. apply in_map_iff in Hin. destruct Hin as [later [Hname Hin]].
  now apply (Hlast later).
Qed.

Lemma forceFields_last_field_wins_witness :
  forceFields (afterBuildTypes sampleGraph) (EntityFields caseEntity)
  = Normal [ ("owner", GraphQLFieldConfig.mk (Some (GraphQLNonNull GraphQLID)) None);
             ("id", GraphQLFieldConfig.mk (Some (GraphQLNonNull GraphQLID)) None) ]
  /\ exists config,
       buildField (afterBuildTypes sampleGraph) caseEntity
         (referenceField "OwnerId" "owner" ["User"; "Group"] false) = Normal config
       /\ Map_get [ ("owner", GraphQLFieldConfig.mk (Some (GraphQLNonNull GraphQLID)) None);
                    ("id", GraphQLFieldConfig.mk (Some (GraphQLNonNull GraphQLID)) None) ]
                  "owner"
          = Some config.
Proof.
  split; [reflexivity|].
  exact (proj2 (proj2 (forceFields_last_field_wins (afterBuildTypes sampleGraph)
           caseEntity
           [scalarField "string" "owner" true; scalarField "id" "id" false] []
           (referenceField "OwnerId" "owner" ["User"; "Group"] false)
           [ ("owner", GraphQLFieldConfig.mk (Some (GraphQLNonNull GraphQLID)) None);
             ("id", GraphQLFieldConfig.mk (Some (GraphQLNonNull GraphQLID)) None) ]
           eq_refl ltac:(intros later []) eq_refl))).
Defined.

(** ** The normalizer's entities in the builder *)

Lemma filterDefined_In_inv {A : Type} (l : list (option A)) (a : A) :
  In a (filterDefined l) -> In (Some a) l.
Proof.
  induction l as [|[a0|] l IH]; cbn [In filterDefined]; intros Hin.
  - contradiction.
  - destruct Hin as [->|Hin]; [now left|right; now apply IH].
  - right. now apply IH.
Qed.

Lemma Forall2_In_right {A B : Type} (R : A -> B -> Prop) (l : list A) (bs : list B) (b : B) :
  Forall2 R l bs -> In b bs -> exists a, In a l /\ R a b.
Proof.
  induction 1 as [|a0 b0 l bs Hab _ IH]; cbn [In]; intros Hin; [contradiction|].
  destruct Hin as [->|Hin].
  - exists a0. split; [now left|exact Hab].
  - destruct (IH Hin) as [a [Ha Hr]]. exists a. split; [now right|exact Hr].
Qed.

Lemma createEntity_field_origin (camelCase : option string -> Completion string)
    (sObject : DescribeSObjectResult.t) (entity : Entity.t) (field : Field.t) :
  createEntity camelCase sObject = Normal entity ->
  In field (Entity.fields entity) ->
  exists sObjectField,
    In sObjectField (DescribeSObjectResult.fields sObject)
    /\ createField camelCase sObjectField = Normal (Some field).
Proof.
  unfold createEntity.
  destruct (mapM (createField camelCase) (DescribeSObjectResult.fields sObject))
    as [fields|m] eqn:Hfields; cbn [bind]; [|discriminate].
  destruct (mapM (createChildRelationShip camelCase)
              (DescribeSObjectResult.childRelationships sObject))
    as [children|m]; cbn [bind]; [|discriminate].
  intros Heq Hin. inversion Heq. subst entity. cbn [Entity.fields] in Hin.
  apply filterDefined_In_inv in Hin. apply mapM_inv in Hfields.
  exact (Forall2_In_right _ _ _ _ Hfields Hin).
Qed.

Lemma createField_unhandled (camelCase : option string -> Completion string)
    (sObjectField : SObjectField.t) (field : Field.t) :
  createField camelCase sObjectField = Normal (Some field) ->
  handledTag field = false.
Proof.
  unfold createField, handledTag.
  destruct (String.eqb (SObjectField.type sObjectField) "reference").
  - destruct (falsy (SObjectField.relationshipName sObjectField)); [discriminate|].
    destruct (camelCase (SObjectField.relationshipName sObjectField)); cbn [bind];
      [|discriminate].
    destruct (SObjectField.polymorphicForeignKey sObjectField);
      intros Heq; inversion Heq; reflexivity.
  - destruct (camelCase (SObjectField.name sObjectField)); cbn [bind]; [|discriminate].
    intros Heq. inversion Heq. cbn [Field.type]. unfold scalarTypeMapping.
    destruct (Map_get SOBJECT_FIELD_SCALAR_TYPE_MAPPING (SObjectField.type sObjectField))
      as [kind|].
    + destruct (FieldType_value_not_a_label kind) as [Hscalar Href].
      now rewrite Hscalar, Href.
    + destruct (existsb _ Object_prototype); reflexivity.
Qed.

(** X13. No field of an entity that [createEntity] returns gets a type from
    [#buildField], in any state of the builder and for any owner: the tag
    [createField] stored is none of the switch's labels, so a nillable field
    is returned with [type: undefined] and a field that is not nillable
    makes [#buildField] throw. *)
Theorem createEntity_fields_untyped (camelCase : option string -> Completion string)
    (sObject : DescribeSObjectResult.t) (entity : Entity.t) (field : Field.t)
    (this : SchemaBuilder.t) (owner : Entity.t) :
  createEntity camelCase sObject = Normal entity ->
  In field (Entity.fields entity) ->
  handledTag field = false
  /\ resolveFieldType this field = Normal None
  /\ buildField this owner field
     = if FieldConfig.nillable (Field.config field)
       then Normal (GraphQLFieldConfig.mk None None)
       else Throw "Expected undefined to be a GraphQL nullable type.".
Proof.
  intros Hentity Hin.
  destruct (createEntity_field_origin _ _ _ _ Hentity Hin) as [r [_ Hmade]].
  destruct (createField_not_supported _ _ _ Hmade) as [_ Hbase].
  split; [now apply (createField_unhandled _ _ _ Hmade)|].
  split; [apply Hbase|apply buildField_unresolved, Hbase].
Qed.

Lemma normalizedContact_made :
  createEntity sampleCamelCase sampleSObject = Normal normalizedContact.
Proof. reflexivity. Qed.

Lemma createEntity_fields_untyped_witness :
  Forall (fun field =>
            buildField (afterBuildTypes normalizedGraph) normalizedContact field
            = if FieldConfig.nillable (Field.config field)
              then Normal (GraphQLFieldConfig.mk None None)
              else Throw "Expected undefined to be a GraphQL nullable type.")
         (Entity.fields normalizedContact).
Proof.
  apply Forall_forall. intros field Hin.
  apply (createEntity_fields_untyped sampleCamelCase sampleSObject normalizedContact field
           (afterBuildTypes normalizedGraph) normalizedContact
           normalizedContact_made Hin).
Defined.

Lemma fromEntries_untyped (this : SchemaBuilder.t) (entity : Entity.t)
    (fields : Dict GraphQLFieldConfig.t) :
  (forall field, In field (Entity.fields entity) ->
     resolveFieldType this field = Normal None) ->
  forceFields this (EntityFields entity) = Normal fields ->
  Forall (fun entry => snd entry = GraphQLFieldConfig.mk None None) fields.
Proof.
  intros Hbase. cbn [forceFields].
  destruct (mapM (fun field => config <- buildField this entity field ;;
                               Normal (Field.gqlName field, config))
                 (Entity.fields entity)) as [entries|m] eqn:Hmap; cbn [bind];
    [|discriminate].
  intros Heq. inversion Heq. subst fields. clear Heq.
  apply mapM_inv in Hmap. apply Forall_forall. intros entry Hin.
  unfold Object_fromEntries, Map_new in Hin. apply fold_set_In in Hin.
  destruct Hin as [Hin|[]].
  destruct (Forall2_In_right _ _ _ _ Hmap Hin) as [field [Hfield Hentry]].
  cbn beta in Hentry.
  rewrite (buildField_unresolved this entity field (Hbase field Hfield)) in Hentry.
  destruct (FieldConfig.nillable (Field.config field)); cbn [bind] in Hentry;
    [|discriminate].
  inversion Hentry. reflexivity.
Qed.

(** X14. For a graph made of entities that [createEntity] returned, with
    distinct display names: one field that is not nillable (an [Id] field,
    say), in any entity, makes [buildSchema] throw; and when [buildSchema]
    returns, no field of any type of the schema has a type: every entry of
    every field map is [{ type: undefined }]. *)
Theorem buildSchema_of_normalized_entities
    (camelCase : option string -> Completion string) (g : Graph.t) :
  NoDup (map Entity.gqlName (Graph.entities g)) ->
  (forall entity, In entity (Graph.entities g) ->
     exists sObject, createEntity camelCase sObject = Normal entity) ->
  (forall entity field,
      In entity (Graph.entities g) -> In field (Entity.fields entity) ->
      FieldConfig.nillable (Field.config field) = false ->
      exists message, buildSchema (SchemaBuilder.new g) = Throw message)
  /\ (forall schema,
        buildSchema (SchemaBuilder.new g) = Normal schema ->
        Forall (fun pair =>
                  Forall (fun entry => snd entry = GraphQLFieldConfig.mk None None)
                         (snd pair))
               (GraphQLSchema.typeFields schema)).
Proof.
  intros Hnd Hmade.
  assert (Hbase : forall entity field,
            In entity (Graph.entities g) -> In field (Entity.fields entity) ->
            resolveFieldType (afterBuildTypes g) field = Normal None).
  { intros entity field Hentity Hin. destruct (Hmade entity Hentity) as [sObject HsObject].
    destruct (createEntity_field_origin _ _ _ _ HsObject Hin) as [r [_ Hr]].
    now apply (createField_not_supported _ _ _ Hr). }
  split.
  - intros entity field Hentity Hin Hnillable.
    apply (buildSchema_field_throws g entity field
             "Expected undefined to be a GraphQL nullable type." Hnd Hentity Hin).
    rewrite (buildField_unresolved _ _ _ (Hbase entity field Hentity Hin)).
    now rewrite Hnillable.
  - intros schema Hschema.
    destruct (buildSchema_inv g schema Hnd Hschema) as [_ [Hfields _]].
    apply Forall_forall. intros pair Hpair.
    destruct (Forall2_In_right _ _ _ _ Hfields Hpair) as [o [Ho [_ Hforce]]].
    apply in_map_iff in Ho. destruct Ho as [entity [<- Hentity]].
    cbn [entityType GraphQLObjectType.fields] in Hforce.
    apply (fromEntries_untyped (afterBuildTypes g) entity); [|exact Hforce].
    intros field Hin. now apply (Hbase entity).
Qed.

Lemma buildSchema_of_normalized_entities_witness :
  buildSchema (SchemaBuilder.new normalizedGraph)
  = Throw "Expected undefined to be a GraphQL nullable type."
  /\ (exists message, buildSchema (SchemaBuilder.new normalizedGraph) = Throw message)
  /\ (exists schema, buildSchema (SchemaBuilder.new mutualGraph) = Normal schema)
  /\ (forall schema,
        buildSchema (SchemaBuilder.new mutualGraph) = Normal schema ->
        Forall (fun pair =>
                  Forall (fun entry => snd entry = GraphQLFieldConfig.mk None None)
                         (snd pair))
               (GraphQLSchema.typeFields schema)).
Proof.
  split; [reflexivity|]. split; [|split; [eexists; reflexivity|]].
  - apply (proj1 (buildSchema_of_normalized_entities sampleCamelCase normalizedGraph
                    ltac:(repeat constructor; intros [])
                    ltac:(intros entity [<-|[]]; exists sampleSObject;
                          exact normalizedContact_made))
             normalizedContact
             (Field.mk (TagString "Id") (Some "Id") "id" (plainConfig false)
                None None None None));
      [cbn; auto|cbn; auto|reflexivity].
  - exact (proj2 (buildSchema_of_normalized_entities sampleCamelCase mutualGraph
                    ltac:(repeat (constructor; [cbn; intuition discriminate|]);
                          constructor)
                    ltac:(intros entity [<-|[<-|[]]];
                          [exists mutualAccountSObject|exists mutualContactSObject];
                          reflexivity))).
Defined.

(** ** Before [#buildTypes] *)

(** X15. The same call of [#buildField] gives different results before and
    after [#buildTypes]: for a reference to one entity the graph knows, a
    builder whose registry is still empty (as the constructor leaves it)
    finds no object type and leaves the field's type [undefined], where the
    builder after [#buildTypes] gives the entity's object type. So the
    [fields] closures must not run before [#buildTypes]. *)
Theorem buildField_before_buildTypes (g : Graph.t) (entity : Entity.t) (field : Field.t)
    (target : string) (referencedEntity : Entity.t) :
  Field.type field = TagString "reference" ->
  Field.referenceTo field = Some [target] ->
  Graph.entityBySfdcName g target = Some referencedEntity ->
  NoDup (map Entity.gqlName (Graph.entities g)) ->
  buildField (SchemaBuilder.new g) entity field
  = (if FieldConfig.nillable (Field.config field)
     then Normal (GraphQLFieldConfig.mk None None)
     else Throw "Expected undefined to be a GraphQL nullable type.")
  /\ buildField (afterBuildTypes g) entity field
     = Normal (GraphQLFieldConfig.mk
                 (Some (if FieldConfig.nillable (Field.config field)
                        then ObjectType (entityType referencedEntity)
                        else GraphQLNonNull (ObjectType (entityType referencedEntity))))
                 None).
Proof.
  intros Htype Href Hfind Hnd. split.
  - apply buildField_unresolved. unfold resolveFieldType.
    rewrite Htype, reference_not_scalarCase, Href.
    cbn [String.eqb Ascii.eqb Bool.eqb SchemaBuilder.new SchemaBuilder.graph
         SchemaBuilder.graphQLTypes].
    now rewrite Hfind.
  - apply buildField_wrap; [|reflexivity].
    now apply (resolveFieldType_target g field target referencedEntity).
Qed.

Lemma buildField_before_buildTypes_witness :
  buildField (SchemaBuilder.new sampleGraph) contactEntity
    (referenceField "AccountId" "account" ["Account"] true)
  = Normal (GraphQLFieldConfig.mk None None)
  /\ buildField (afterBuildTypes sampleGraph) contactEntity
       (referenceField "AccountId" "account" ["Account"] true)
     = Normal (GraphQLFieldConfig.mk (Some (ObjectType (entityType accountEntity))) None).
Proof.
  exact (buildField_before_buildTypes sampleGraph contactEntity
           (referenceField "AccountId" "account" ["Account"] true)
           "Account" accountEntity eq_refl eq_refl eq_refl sampleGraph_gqlNames).
Defined.

(** ** C1 and C2: the single references of the entity module in the builder *)

(** C1. A field of the single-reference variant carries the tag
    [FieldType.REFERENCE], whose value is ['Reference'], and names its
    target in [sfdcReferencedEntityName]. [#buildField] has no [case] for
    that tag (its case ['reference'] is spelled differently and reads
    [referenceTo]): whatever the builder's state and the graph, also when
    the graph has the target entity, the local variable [type] stays
    unassigned. A nillable field is returned with [type: undefined]; for a
    field that is not nillable, [new GraphQLNonNull(undefined)] throws.
    Neither the target's object type nor the identifier type is produced. *)
Theorem buildField_single_reference_untyped (this : SchemaBuilder.t) (entity : Entity.t)
    (field : Field.t) :
  Field.type field = TagString (FieldType_value REFERENCE) ->
  isReferenceField field = true
  /\ resolveFieldType this field = Normal None
  /\ buildField this entity field
     = if FieldConfig.nillable (Field.config field)
       then Normal (GraphQLFieldConfig.mk None None)
       else Throw "Expected undefined to be a GraphQL nullable type.".
Proof.
  intros Htype.
  assert (Hbase : resolveFieldType this field = Normal None)
    by (unfold resolveFieldType; now rewrite Htype).
  split; [unfold isReferenceField; now rewrite Htype|].
  split; [exact Hbase|now apply buildField_unresolved].
Qed.

Lemma buildField_single_reference_untyped_witness :
  createField sampleCamelCase accountRecord = Normal (Some accountField)
  /\ Graph.entityBySfdcName sampleGraph "Account" = Some accountEntity
  /\ resolveFieldType (afterBuildTypes sampleGraph) accountField = Normal None
  /\ buildField (afterBuildTypes sampleGraph) contactEntity accountField
     = Normal (GraphQLFieldConfig.mk None None).
Proof.
  split; [reflexivity|]. split; [reflexivity|].
  exact (proj2 (buildField_single_reference_untyped (afterBuildTypes sampleGraph)
                  contactEntity accountField eq_refl)).
Defined.

Lemma forceFields_lookup (this : SchemaBuilder.t) (entity : Entity.t)
    (fields : Dict GraphQLFieldConfig.t) (field : Field.t)
    (config : GraphQLFieldConfig.t) :
  forceFields this (EntityFields entity) = Normal fields ->
  NoDup (map Field.gqlName (Entity.fields entity)) ->
  In field (Entity.fields entity) ->
  buildField this entity field = Normal config ->
  Map_get fields (Field.gqlName field) = Some config.
Proof.
  cbn [forceFields].
  destruct (mapM (fun field0 => config0 <- buildField this entity field0 ;;
                                Normal (Field.gqlName field0, config0))
                 (Entity.fields entity)) as [entries|m] eqn:Hmap; cbn [bind];
    [|discriminate].
  intros Heq Hnd Hin Hconfig. inversion Heq. subst fields. clear Heq.
  apply mapM_inv in Hmap.
  pose proof (entries_keys _ _ _ _ Hmap) as Hkeys.
  unfold Object_fromEntries. rewrite Map_new_NoDup by now rewrite Hkeys.
  apply Map_get_In; [now rewrite Hkeys|].
  destruct (Forall2_In_left _ _ _ _ Hmap Hin) as [entry [Hentry Hmade]].
  cbn beta in Hmade. rewrite Hconfig in Hmade. cbn [bind] in Hmade.
  inversion Hmade. subst entry. exact Hentry.
Qed.

(** C2. Two entities [A] and [B] of a graph with distinct display names,
    each with a field of the single-reference variant (tag ['Reference'])
    whose target is the other, wherever the two stand in the graph.
    [#buildField] gives neither field a type: it returns
    [{ type: undefined }] for a nillable field and throws for a field that
    is not nillable. So when one of the two fields is not nillable,
    [buildSchema] throws; and when [buildSchema] returns, the field map of
    [A]'s type and the field map of [B]'s type hold [{ type: undefined }]
    for the two fields, not the other entity's object type. *)
Theorem mutual_references_not_linked (g : Graph.t) (A B : Entity.t)
    (fieldA fieldB : Field.t) :
  NoDup (map Entity.gqlName (Graph.entities g)) ->
  In A (Graph.entities g) ->
  In B (Graph.entities g) ->
  In fieldA (Entity.fields A) ->
  NoDup (map Field.gqlName (Entity.fields A)) ->
  Field.type fieldA = TagString (FieldType_value REFERENCE) ->
  Field.sfdcReferencedEntityName fieldA = Some (Entity.sfdcName B) ->
  In fieldB (Entity.fields B) ->
  NoDup (map Field.gqlName (Entity.fields B)) ->
  Field.type fieldB = TagString (FieldType_value REFERENCE) ->
  Field.sfdcReferencedEntityName fieldB = Some (Entity.sfdcName A) ->
  buildField (afterBuildTypes g) A fieldA
  = (if FieldConfig.nillable (Field.config fieldA)
     then Normal (GraphQLFieldConfig.mk None None)
     else Throw "Expected undefined to be a GraphQL nullable type.")
  /\ buildField (afterBuildTypes g) B fieldB
     = (if FieldConfig.nillable (Field.config fieldB)
        then Normal (GraphQLFieldConfig.mk None None)
        else Throw "Expected undefined to be a GraphQL nullable type.")
  /\ (FieldConfig.nillable (Field.config fieldA) = false
      \/ FieldConfig.nillable (Field.config fieldB) = false ->
      exists message, buildSchema (SchemaBuilder.new g) = Throw message)
  /\ (forall schema,
        buildSchema (SchemaBuilder.new g) = Normal schema ->
        exists fieldsA fieldsB,
          In (entityType A, fieldsA) (GraphQLSchema.typeFields schema)
          /\ In (entityType B, fieldsB) (GraphQLSchema.typeFields schema)
          /\ Map_get fieldsA (Field.gqlName fieldA)
             = Some (GraphQLFieldConfig.mk None None)
          /\ Map_get fieldsB (Field.gqlName fieldB)
             = Some (GraphQLFieldConfig.mk None None)).
Proof.
  intros Hnd HA HB HfA HndA HtypeA _ HfB HndB HtypeB _.
  assert (Hfield : forall X fieldX,
            Field.type fieldX = TagString (FieldType_value REFERENCE) ->
            buildField (afterBuildTypes g) X fieldX
            = (if FieldConfig.nillable (Field.config fieldX)
               then Normal (GraphQLFieldConfig.mk None None)
               else Throw "Expected undefined to be a GraphQL nullable type.")).
  { intros X fieldX HtypeX. apply buildField_unresolved.
    unfold resolveFieldType. now rewrite HtypeX. }
  assert (Hthrows : forall X fieldX,
            In X (Graph.entities g) -> In fieldX (Entity.fields X) ->
            Field.type fieldX = TagString (FieldType_value REFERENCE) ->
            FieldConfig.nillable (Field.config fieldX) = false ->
            exists message, buildSchema (SchemaBuilder.new g) = Throw message).
  { intros X fieldX HX HfX HtypeX Hnillable.
    apply (buildSchema_field_throws g X fieldX
             "Expected undefined to be a GraphQL nullable type." Hnd HX HfX).
    now rewrite (Hfield X fieldX HtypeX), Hnillable. }
  split; [now apply Hfield|]. split; [now apply Hfield|]. split.
  - intros [Hnillable|Hnillable]; [now apply (Hthrows A fieldA)|now apply (Hthrows B fieldB)].
  - intros schema Hschema.
    destruct (buildSchema_inv g schema Hnd Hschema) as [_ [Hfields _]].
    assert (Hlinked : forall X fieldX,
              In X (Graph.entities g) -> In fieldX (Entity.fields X) ->
              NoDup (map Field.gqlName (Entity.fields X)) ->
              Field.type fieldX = TagString (FieldType_value REFERENCE) ->
              exists fieldsX,
                In (entityType X, fieldsX) (GraphQLSchema.typeFields schema)
                /\ Map_get fieldsX (Field.gqlName fieldX)
                   = Some (GraphQLFieldConfig.mk None None)).
    { intros X fieldX HX HfX HndX HtypeX.
      destruct (Forall2_In_left _ _ _ _ Hfields (in_map entityType _ X HX))
        as [[o fieldsX] [Hpair [Hfst Hforce]]].
      cbn [fst snd] in Hfst, Hforce. subst o.
      cbn [entityType GraphQLObjectType.fields] in Hforce.
      exists fieldsX. split; [exact Hpair|].
      apply (forceFields_lookup _ _ _ fieldX _ Hforce HndX HfX).
      rewrite (Hfield X fieldX HtypeX).
      destruct (FieldConfig.nillable (Field.config fieldX)) eqn:Hnillable;
        [reflexivity|].
      destruct (Hthrows X fieldX HX HfX HtypeX Hnillable) as [message Hmessage].
      congruence. }
    destruct (Hlinked A fieldA HA HfA HndA HtypeA) as [fieldsA [HinA HgetA]].
    destruct (Hlinked B fieldB HB HfB HndB HtypeB) as [fieldsB [HinB HgetB]].
    exists fieldsA, fieldsB. auto.
Qed.

Lemma mutual_entities_made :
  createEntity sampleCamelCase mutualAccountSObject = Normal mutualAccount
  /\ createEntity sampleCamelCase mutualContactSObject = Normal mutualContact.
Proof. split; reflexivity. Qed.

Lemma mutual_names_distinct :
  NoDup (map Entity.gqlName (Graph.entities mutualGraph))
  /\ NoDup (map Entity.gqlName (Graph.entities mutualGraphSwapped))
  /\ NoDup (map Field.gqlName (Entity.fields mutualAccount))
  /\ NoDup (map Field.gqlName (Entity.fields mutualContact)).
Proof.
  repeat split; repeat (constructor; [cbn; intuition discriminate|]); constructor.
Qed.

Lemma mutual_references_not_linked_witness :
  (exists schema, buildSchema (SchemaBuilder.new mutualGraph) = Normal schema)
  /\ (forall schema,
        buildSchema (SchemaBuilder.new mutualGraph) = Normal schema ->
        exists fieldsA fieldsB,
          In (entityType mutualAccount, fieldsA) (GraphQLSchema.typeFields schema)
          /\ In (entityType mutualContact, fieldsB) (GraphQLSchema.typeFields schema)
          /\ Map_get fieldsA "primaryContact" = Some (GraphQLFieldConfig.mk None None)
          /\ Map_get fieldsB "account" = Some (GraphQLFieldConfig.mk None None))
  /\ (forall schema,
        buildSchema (SchemaBuilder.new mutualGraphSwapped) = Normal schema ->
        exists fieldsA fieldsB,
          In (entityType mutualAccount, fieldsA) (GraphQLSchema.typeFields schema)
          /\ In (entityType mutualContact, fieldsB) (GraphQLSchema.typeFields schema)
          /\ Map_get fieldsA "primaryContact" = Some (GraphQLFieldConfig.mk None None)
          /\ Map_get fieldsB "account" = Some (GraphQLFieldConfig.mk None None)).
Proof.
  destruct mutual_names_distinct as [Hgql [HgqlS [HfA HfB]]].
  split; [eexists; reflexivity|]. split.
  - exact (proj2 (proj2 (proj2 (mutual_references_not_linked mutualGraph
             mutualAccount mutualContact primaryContactField accountField
             Hgql ltac:(cbn; auto) ltac:(cbn; auto)
             ltac:(cbn; auto) HfA eq_refl eq_refl
             ltac:(cbn; auto) HfB eq_refl eq_refl)))).
  - exact (proj2 (proj2 (proj2 (mutual_references_not_linked mutualGraphSwapped
             mutualAccount mutualContact primaryContactField accountField
             HgqlS ltac:(cbn; auto) ltac:(cbn; auto)
             ltac:(cbn; auto) HfA eq_refl eq_refl
             ltac:(cbn; auto) HfB eq_refl eq_refl)))).
Defined.
